(** * A single-node proof-of-work ledger: Transaction, Block, BlockchainNode

    Shallow embedding of [Block_Chain_Code.ipynb] (first cell: the three
    classes [Transaction], [Block] and [BlockchainNode]).

    Modelling choices, fixed here once:

    - Python [int] is [Z]; Python [float] is the kernel's IEEE-754 binary64
      ([PrimFloat.float]), with [+], [-] and [<] the primitive operations;
      [str] is [string]; [bytes] is [list byte]; [rsa.PublicKey(n, e)] is a
      record of two integers compared field by field, as its [__eq__] does.
    - What the notebook imports from libraries is a field of the class
      [Primitives]: [hashlib.sha256(..).hexdigest()], [rsa.verify], and the
      [repr] of a float and of a bytes object.  Everything the notebook
      itself writes is defined below.
    - An attribute that may be absent ([validation_failure_reason], created
      only in the failure branch of [Transaction.validate]) is an [option].
    - A Python exception is a value of [exn]; a call that can raise returns
      an [outcome].  State changed before a [raise] stays changed.
    - [print] appends a line to the list of printed lines.
    - [time.time()] is the argument [now] of [mine_block].
    - The nonce search of [mine_block] has no bound in the source; the model
      takes [fuel], the number of increments it may make, and returns [None]
      when that is not enough.
    - Objects are passed by value.  That is exact for the calls modelled
      here: [mine_block] rebinds [pending_transactions] to a fresh list right
      after it hands the old list to the new block, and no method mutates a
      transaction that it stores. *)

From Stdlib Require Import ZArith List String Ascii Strings.Byte Lia.
From Stdlib Require Import DecimalString DecimalPos DecimalZ.
From Stdlib Require Import PrimFloat SpecFloat FloatOps FloatAxioms.
From stdpp Require Import base list strings.
Import ListNotations.

Local Open Scope Z_scope.
Local Open Scope string_scope.
Local Open Scope list_scope.

(** ** Python values *)

Definition bytes := list byte.

(** [str(i)] for an [int]. *)
Definition str_int (i : Z) : string := NilZero.string_of_int (Z.to_int i).

(** [s.encode()]: the strings built here are ASCII, one byte per character. *)
Definition encode (s : string) : bytes := list_byte_of_string s.

(** [s.endswith(suffix)]. *)
Definition endswith (s suffix : string) : bool :=
  let n := String.length s in
  let k := String.length suffix in
  (k <=? n)%nat && String.eqb (substring (n - k) k s) suffix.

(** [sep.join(xs)]. *)
Fixpoint join (sep : string) (xs : list string) : string :=
  match xs with
  | [] => EmptyString
  | [x] => x
  | x :: rest => x +:+ sep +:+ join sep rest
  end.

(** An exception object: its class and [str(e)]. *)
Record exn := Exn { exn_class : string; exn_str : string }.

Inductive outcome (A : Type) :=
| Return (a : A)
| Raise (e : exn).
Arguments Return {A} a.
Arguments Raise {A} e.

(** ** rsa.PublicKey *)

Record PublicKey := { key_n : Z; key_e : Z }.

Definition PublicKey_eqb (a b : PublicKey) : bool :=
  Z.eqb (key_n a) (key_n b) && Z.eqb (key_e a) (key_e b).

(** [rsa.PublicKey.__repr__]: ['PublicKey(%i, %i)' % (n, e)]. *)
Definition repr_PublicKey (k : PublicKey) : string :=
  "PublicKey(" +:+ str_int (key_n k) +:+ ", " +:+ str_int (key_e k) +:+ ")".

Record PrivateKey := { priv_n : Z; priv_e : Z; priv_d : Z; priv_p : Z; priv_q : Z }.

(** ** Library primitives *)

Class Primitives := {
  (** [hashlib.sha256(data).hexdigest()] *)
  sha256_hexdigest : bytes -> string;
  (** [rsa.sign(message, priv_key, 'SHA-256')] *)
  rsa_sign : bytes -> PrivateKey -> outcome bytes;
  (** [rsa.verify(message, signature, pub_key)]: the name of the hash used,
      or the exception it raises. *)
  rsa_verify : bytes -> bytes -> PublicKey -> outcome string;
  (** [repr(x)] for a float [x] (also what [str] and an f-string give). *)
  repr_float : float -> string;
  (** [repr(b)] for a bytes object [b]. *)
  repr_bytes : bytes -> string
}.

(** ** Transaction *)

Record Transaction := {
  sender_address : PublicKey;
  recipient_address : PublicKey;
  value : float;
  signature : bytes;
  (** not a dataclass field: set by [validate] when verification fails *)
  validation_failure_reason : option string
}.

(** [Transaction(sender, recipient, value)], [signature] defaulting to [b'']. *)
Definition new_Transaction (sender recipient : PublicKey) (v : float) : Transaction :=
  {| sender_address := sender; recipient_address := recipient; value := v;
     signature := []; validation_failure_reason := None |}.

Definition set_validation_failure_reason (r : string) (t : Transaction) : Transaction :=
  {| sender_address := sender_address t; recipient_address := recipient_address t;
     value := value t; signature := signature t;
     validation_failure_reason := Some r |}.

Definition set_signature (sig : bytes) (t : Transaction) : Transaction :=
  {| sender_address := sender_address t; recipient_address := recipient_address t;
     value := value t; signature := sig;
     validation_failure_reason := validation_failure_reason t |}.

Definition AttributeError_reason : exn :=
  Exn "AttributeError"
      "'Transaction' object has no attribute 'validation_failure_reason'".

(** ** Block *)

Record Block := {
  num : Z;
  timestamp : float;
  prev_block_hash : string;
  transactions : list Transaction;
  block_hash : string;
  nonce : Z
}.

Definition set_block_hash (h : string) (b : Block) : Block :=
  {| num := num b; timestamp := timestamp b; prev_block_hash := prev_block_hash b;
     transactions := transactions b; block_hash := h; nonce := nonce b |}.

Definition set_nonce (n : Z) (b : Block) : Block :=
  {| num := num b; timestamp := timestamp b; prev_block_hash := prev_block_hash b;
     transactions := transactions b; block_hash := block_hash b; nonce := n |}.

(** ** BlockchainNode *)

Record BlockchainNode := {
  miner_address : PublicKey;
  blocks : list Block;
  pending_transactions : list Transaction;
  proof_of_work_func : string -> bool
}.

Definition set_blocks (bs : list Block) (self : BlockchainNode) : BlockchainNode :=
  {| miner_address := miner_address self; blocks := bs;
     pending_transactions := pending_transactions self;
     proof_of_work_func := proof_of_work_func self |}.

Definition set_pending_transactions (ts : list Transaction) (self : BlockchainNode)
  : BlockchainNode :=
  {| miner_address := miner_address self; blocks := blocks self;
     pending_transactions := ts;
     proof_of_work_func := proof_of_work_func self |}.

Definition REWARD_AMOUNT : float := 2.0%float.

(** [rsa.PublicKey(0, 0)]: the sender of a reward. *)
Definition reward_sender : PublicKey := {| key_n := 0; key_e := 0 |}.

Definition IndexError : exn := Exn "IndexError" "list index out of range".

(** ** Statements that read and write a frame and may raise

    A method body runs against a frame (here: [self], the argument
    [transaction] and the lines printed so far).  [Raise] keeps the frame as
    the statement left it, as a Python exception keeps the heap. *)

Record Frame := {
  self_ : BlockchainNode;
  transaction_ : Transaction;
  stdout : list string
}.

Definition Py (A : Type) : Type := Frame -> outcome A * Frame.

Definition ret {A} (a : A) : Py A := fun fr => (Return a, fr).

Definition bind {A B} (m : Py A) (k : A -> Py B) : Py B :=
  fun fr =>
    match m fr with
    | (Return a, fr') => k a fr'
    | (Raise e, fr') => (Raise e, fr')
    end.

Definition raise {A} (e : exn) : Py A := fun fr => (Raise e, fr).

(** [try: body  except Exception as e: handler e]. *)
Definition try_except {A} (body : Py A) (handler : exn -> Py A) : Py A :=
  fun fr =>
    match body fr with
    | (Return a, fr') => (Return a, fr')
    | (Raise e, fr') => handler e fr'
    end.

Definition print (line : string) : Py unit :=
  fun fr =>
    (Return tt,
     {| self_ := self_ fr; transaction_ := transaction_ fr;
        stdout := stdout fr ++ [line] |}).

Definition get_self : Py BlockchainNode := fun fr => (Return (self_ fr), fr).

Definition get_transaction : Py Transaction := fun fr => (Return (transaction_ fr), fr).

Definition put_self (n : BlockchainNode) : Py unit :=
  fun fr =>
    (Return tt, {| self_ := n; transaction_ := transaction_ fr; stdout := stdout fr |}).

Definition put_transaction (t : Transaction) : Py unit :=
  fun fr =>
    (Return tt, {| self_ := self_ fr; transaction_ := t; stdout := stdout fr |}).

Definition lift {A} (o : outcome A) : Py A := fun fr => (o, fr).

Notation "'let*' x ':=' m 'in' k" := (bind m (fun x => k))
  (at level 10, x name, m at level 100, k at level 200).
Notation "m ';;' k" := (bind m (fun _ => k))
  (at level 100, k at level 200, right associativity).

Section WithPrimitives.
Context {P : Primitives}.

(** The [__repr__] that [@dataclass] generates: the four declared fields. *)
Definition repr_Transaction (t : Transaction) : string :=
  "Transaction(sender_address=" +:+ repr_PublicKey (sender_address t)
  +:+ ", recipient_address=" +:+ repr_PublicKey (recipient_address t)
  +:+ ", value=" +:+ repr_float (value t)
  +:+ ", signature=" +:+ repr_bytes (signature t) +:+ ")".

(** [str(xs)] for a list of transactions. *)
Definition repr_transactions (xs : list Transaction) : string :=
  "[" +:+ join ", " (map repr_Transaction xs) +:+ "]".

Definition get_core_data (t : Transaction) : bytes :=
  encode (repr_PublicKey (sender_address t)
          +:+ repr_PublicKey (recipient_address t)
          +:+ repr_float (value t)).

(** [Transaction.validate]: returns the outcome and the transaction as the
    call leaves it. *)
Definition Transaction_validate (t : Transaction) : outcome unit * Transaction :=
  match rsa_verify (get_core_data t) (signature t) (sender_address t) with
  | Return _ => (Return tt, t)
  | Raise e => (Raise e, set_validation_failure_reason (exn_str e) t)
  end.

(** [Transaction.sign]. *)
Definition Transaction_sign (t : Transaction) (sender_private_key : PrivateKey)
  : outcome unit * Transaction :=
  match rsa_sign (get_core_data t) sender_private_key with
  | Return sig => Transaction_validate (set_signature sig t)
  | Raise e => (Raise e, t)
  end.

(** [Transaction.get_validation_failure_reason]: reading an attribute that
    was never set raises [AttributeError]. *)
Definition get_validation_failure_reason (t : Transaction) : outcome string :=
  match validation_failure_reason t with
  | Some r => Return r
  | None => Raise AttributeError_reason
  end.

(** [Block] methods *)

Definition get_header (b : Block) : bytes :=
  encode (str_int (num b) +:+ repr_float (timestamp b) +:+ prev_block_hash b
          +:+ str_int (nonce b) +:+ repr_transactions (transactions b)).

(** [Block.hash]: the block with its cache overwritten, and the digest. *)
Definition Block_hash (b : Block) : Block * string :=
  let h := sha256_hexdigest (get_header b) in
  (set_block_hash h b, h).

(** [Block.validate]. *)
Definition Block_validate (b : Block) (proof_of_work_func : string -> bool)
  : Block * bool :=
  let '(b', h) := Block_hash b in
  (b', proof_of_work_func h).

(** ** BlockchainNode methods *)

(** The arithmetic of [get_balance], over any carrier: the two nested loops,
    a debit when the address is the sender and a credit when it is the
    recipient (both for a transfer to oneself). *)
Section Balance.
Context {R : Type} (zero : R) (add sub : R -> R -> R) (amount : Transaction -> R).

Definition balance_step (address : PublicKey) (balance : R) (t : Transaction) : R :=
  let balance :=
    if PublicKey_eqb (sender_address t) address then sub balance (amount t)
    else balance in
  if PublicKey_eqb (recipient_address t) address then add balance (amount t)
  else balance.

Definition balance_over (chain : list Block) (address : PublicKey) : R :=
  fold_left
    (fun balance block => fold_left (balance_step address) (transactions block) balance)
    chain zero.

End Balance.

(** [BlockchainNode.get_balance]: floats, starting from [0.0]. *)
Definition get_balance (self : BlockchainNode) (address : PublicKey) : float :=
  balance_over 0%float PrimFloat.add PrimFloat.sub value (blocks self) address.

(** [transaction.validate()] on the frame's transaction. *)
Definition validate_transaction : Py unit :=
  fun fr =>
    let '(o, t) := Transaction_validate (transaction_ fr) in
    (o, {| self_ := self_ fr; transaction_ := t; stdout := stdout fr |}).

Definition insufficient_tokens (required available : float) : exn :=
  Exn "Exception"
      ("Insufficient tokens available (" +:+ repr_float required +:+ " required, "
       +:+ repr_float available +:+ " available)").

(** The [try] block of [submit_transaction]. *)
Definition submit_try : Py unit :=
  validate_transaction ;;
  let* self := get_self in
  let* transaction := get_transaction in
  let sender_balance := get_balance self (sender_address transaction) in
  if PrimFloat.ltb sender_balance (value transaction)
  then raise (insufficient_tokens (value transaction) sender_balance)
  else
    put_self (set_pending_transactions
                (pending_transactions self ++ [transaction]) self) ;;
    print "Transaction submitted successfully.".

(** The [except Exception as e] block of [submit_transaction]. *)
Definition submit_except (e : exn) : Py unit :=
  print ("Transaction submission failed: " +:+ exn_str e) ;;
  let* transaction := get_transaction in
  print "Transaction Details:" ;;
  print ("Sender Public Key: " +:+ repr_PublicKey (sender_address transaction)) ;;
  print ("Recipient Public Key: " +:+ repr_PublicKey (recipient_address transaction)) ;;
  print ("Value: " +:+ repr_float (value transaction)) ;;
  print ("Signature: " +:+ repr_bytes (signature transaction)) ;;
  let* validation_failure_reason := lift (get_validation_failure_reason transaction) in
  (if String.eqb validation_failure_reason EmptyString then ret tt
   else print ("Validation Failure Reason: " +:+ validation_failure_reason)) ;;
  raise e.

(** [BlockchainNode.submit_transaction]: what the call raises or returns,
    and the frame it leaves (node, transaction object, printed lines). *)
Definition submit_transaction (self : BlockchainNode) (transaction : Transaction)
  : outcome unit * Frame :=
  try_except submit_try submit_except
    {| self_ := self; transaction_ := transaction; stdout := [] |}.

(** The [while not new_block.validate(..)] loop of [mine_block]; [fuel]
    bounds the number of times its body runs. *)
Fixpoint pow_search (fuel : nat) (proof_of_work_func : string -> bool)
  (new_block : Block) (proof : Z) : option Block :=
  let '(new_block, ok) := Block_validate new_block proof_of_work_func in
  if ok then Some new_block
  else
    match fuel with
    | O => None
    | S fuel' =>
        let proof := proof + 1 in
        pow_search fuel' proof_of_work_func (set_nonce proof new_block) proof
    end.

Definition mined_message (b : Block) : string :=
  "Successfully mined new block " +:+ str_int (num b) +:+ "!".

(** [BlockchainNode.mine_block]: the node after the call and the line it
    prints; [None] when [fuel] increments find no nonce. *)
Definition mine_block (fuel : nat) (now : float) (self : BlockchainNode)
  : option (BlockchainNode * list string) :=
  let '(chain, prev_hash, number) :=
    if (length (blocks self) <=? 0)%nat then (blocks self, "-", 0)
    else
      match last (blocks self) with
      | None => (blocks self, "-", 0)
      | Some prev_block =>
          let '(prev_block', h) := Block_hash prev_block in
          (<[(length (blocks self) - 1)%nat := prev_block']> (blocks self),
           h, num prev_block + 1)
      end in
  let new_block :=
    {| num := number; timestamp := now; prev_block_hash := prev_hash;
       transactions := pending_transactions self;
       block_hash := EmptyString; nonce := 0 |} in
  match pow_search fuel (proof_of_work_func self) new_block 0 with
  | None => None
  | Some new_block =>
      let reward_transaction :=
        new_Transaction reward_sender (miner_address self) REWARD_AMOUNT in
      Some ({| miner_address := miner_address self;
               blocks := chain ++ [new_block];
               pending_transactions := [] ++ [reward_transaction];
               proof_of_work_func := proof_of_work_func self |},
            [mined_message new_block])
  end.

(** [BlockchainNode.__init__]. *)
Definition new_BlockchainNode (fuel : nat) (now : float) (miner : PublicKey)
  : option (BlockchainNode * list string) :=
  mine_block fuel now
    {| miner_address := miner; blocks := [];
       pending_transactions := [];
       proof_of_work_func := fun x => endswith x "000" |}.

Definition linkage_message (b : Block) : string :=
  "Blockchain validation failed at block " +:+ str_int (num b)
  +:+ ": Previous block hash mismatch.".

Definition pow_message (b : Block) : string :=
  "Blockchain validation failed at block " +:+ str_int (num b)
  +:+ ": Invalid proof-of-work.".

Definition validated_message (chain : list Block) : string :=
  "Successfully validated chain of size " +:+ str_int (Z.of_nat (length chain)) +:+ "!".

(** The [for i in range(1, len(self.blocks))] loop of [validate_chain] over
    the indices still to visit: [Return None] when the loop runs out,
    [Return (Some line)] when the body returns [False] after printing
    [line]. *)
Fixpoint validate_chain_loop (proof_of_work_func : string -> bool)
  (indices : list nat) (chain : list Block) : outcome (option string) * list Block :=
  match indices with
  | [] => (Return None, chain)
  | i :: rest =>
      match chain !! (i - 1)%nat, chain !! i with
      | Some prev_block, Some current_block =>
          let '(prev_block', h) := Block_hash prev_block in
          let chain := <[(i - 1)%nat := prev_block']> chain in
          if negb (String.eqb (prev_block_hash current_block) h)
          then (Return (Some (linkage_message current_block)), chain)
          else
            let '(current_block', ok) :=
              Block_validate current_block proof_of_work_func in
            let chain := <[i := current_block']> chain in
            if negb ok
            then (Return (Some (pow_message current_block')), chain)
            else validate_chain_loop proof_of_work_func rest chain
      | _, _ => (Raise IndexError, chain)
      end
  end.

(** [BlockchainNode.validate_chain]: result, node after the call (the hash
    caches are rewritten), printed lines. *)
Definition validate_chain (self : BlockchainNode)
  : outcome bool * BlockchainNode * list string :=
  match validate_chain_loop (proof_of_work_func self)
          (seq 1 (length (blocks self) - 1)) (blocks self) with
  | (Return None, chain) =>
      (Return true, set_blocks chain self, [validated_message chain])
  | (Return (Some line), chain) => (Return false, set_blocks chain self, [line])
  | (Raise e, chain) => (Raise e, set_blocks chain self, [])
  end.

(** ** Histories

    A transaction object on which [validate] has never failed: built by the
    constructor, then signed, validated or given another signature, every
    [validate] so far having returned. *)
Inductive never_failed : Transaction -> Prop :=
| never_failed_new sender recipient v sig :
    never_failed (set_signature sig (new_Transaction sender recipient v))
| never_failed_assign t sig :
    never_failed t -> never_failed (set_signature sig t)
| never_failed_validate t :
    never_failed t ->
    fst (Transaction_validate t) = Return tt ->
    never_failed (snd (Transaction_validate t))
| never_failed_sign t key :
    never_failed t ->
    fst (Transaction_sign t key) = Return tt ->
    never_failed (snd (Transaction_sign t key)).

(** The nodes that construction followed by calls of [submit_transaction]
    and [mine_block] can produce.  A [submit_transaction] that raises leaves
    a node too: the caller may catch the exception and go on. *)
Inductive reachable : BlockchainNode -> Prop :=
| reachable_new fuel now miner self out :
    new_BlockchainNode fuel now miner = Some (self, out) ->
    reachable self
| reachable_submit self transaction :
    reachable self ->
    reachable (self_ (snd (submit_transaction self transaction)))
| reachable_mine self fuel now self' out :
    reachable self ->
    mine_block fuel now self = Some (self', out) ->
    reachable self'.

(** The hash of a block as recomputed from its current fields. *)
Definition recomputed_hash (b : Block) : string := snd (Block_hash b).

(** The block [mine_block] starts its nonce search from. *)
Definition candidate_block (now : float) (self : BlockchainNode) : Block :=
  {| num := match last (blocks self) with
            | Some prev_block => num prev_block + 1
            | None => 0
            end;
     timestamp := now;
     prev_block_hash := match last (blocks self) with
                        | Some prev_block => recomputed_hash prev_block
                        | None => "-"
                        end;
     transactions := pending_transactions self;
     block_hash := EmptyString;
     nonce := 0 |}.

(** The reward transaction [mine_block] leaves in the pool. *)
Definition reward_transaction (self : BlockchainNode) : Transaction :=
  {| sender_address := reward_sender; recipient_address := miner_address self;
     value := REWARD_AMOUNT; signature := []; validation_failure_reason := None |}.

(** The two checks [validate_chain] makes on an adjacent pair. *)
Definition linkage_ok (prev_block current_block : Block) : bool :=
  String.eqb (prev_block_hash current_block) (recomputed_hash prev_block).

Definition pow_ok (proof_of_work_func : string -> bool) (b : Block) : bool :=
  proof_of_work_func (recomputed_hash b).

(** The chain after [prev_block.hash()] has rewritten the cache of the last
    block. *)
Definition refresh_last (chain : list Block) : list Block :=
  match last chain with
  | Some prev_block =>
      <[(length chain - 1)%nat := fst (Block_hash prev_block)]> chain
  | None => chain
  end.

(** A block without its cache. *)
Definition core (b : Block) : Block := set_block_hash EmptyString b.

(** The lines the [except] block of [submit_transaction] prints before it
    looks up the validation failure reason. *)
Definition failure_report (e : exn) (t : Transaction) : list string :=
  [ "Transaction submission failed: " +:+ exn_str e;
    "Transaction Details:";
    "Sender Public Key: " +:+ repr_PublicKey (sender_address t);
    "Recipient Public Key: " +:+ repr_PublicKey (recipient_address t);
    "Value: " +:+ repr_float (value t);
    "Signature: " +:+ repr_bytes (signature t) ].

(** The line it prints for a reason that is not the empty string. *)
Definition reason_report (reason : string) : list string :=
  if String.eqb reason EmptyString then []
  else ["Validation Failure Reason: " +:+ reason].

(** Adjacent blocks are linked. *)
Definition linked (chain : list Block) : Prop :=
  forall i prev_block current_block,
    chain !! i = Some prev_block -> chain !! S i = Some current_block ->
    prev_block_hash current_block = snd (Block_hash prev_block).

(** The pair of blocks at [j - 1] and [j] passes both checks of
    [validate_chain]. *)
Definition pair_passes (pow : string -> bool) (chain : list Block) (j : nat) : Prop :=
  forall prev_block current_block,
    chain !! (j - 1)%nat = Some prev_block -> chain !! j = Some current_block ->
    linkage_ok prev_block current_block = true /\ pow_ok pow current_block = true.

(** The pair at [j - 1] and [j] fails, and [line] is what [validate_chain]
    prints for the check that fails first. *)
Definition pair_fails (pow : string -> bool) (chain : list Block) (j : nat)
  (line : string) : Prop :=
  exists prev_block current_block,
    chain !! (j - 1)%nat = Some prev_block /\ chain !! j = Some current_block
    /\ ((linkage_ok prev_block current_block = false
         /\ line = linkage_message current_block)
        \/ (linkage_ok prev_block current_block = true
            /\ pow_ok pow current_block = false
            /\ line = pow_message current_block)).

(** What the loop of [validate_chain] over the indices [i .. i + n - 1]
    reports: nothing when every pair passes, else the line of the first
    pair that fails. *)
Definition loop_reports (pow : string -> bool) (chain : list Block) (i n : nat)
  (r : option string) : Prop :=
  match r with
  | None => forall j, (i <= j < i + n)%nat -> pair_passes pow chain j
  | Some line =>
      exists j, (i <= j < i + n)%nat /\ pair_fails pow chain j line
                /\ forall j', (i <= j' < j)%nat -> pair_passes pow chain j'
  end.

(** Every address that a transaction of the chain names. *)
Definition chain_addresses (chain : list Block) : list PublicKey :=
  flat_map (fun b => flat_map (fun t => [sender_address t; recipient_address t])
                              (transactions b)) chain.

(** [sum(xs)] over floats. *)
Definition float_sum (xs : list float) : float := fold_left PrimFloat.add xs 0%float.

Definition Z_sum (xs : list Z) : Z := fold_left Z.add xs 0.

End WithPrimitives.

(** A finite float counted in units of [2^-1074], in which every finite
    binary64 value is a whole number; [0] for infinities and NaN. *)
Definition exact_units (x : float) : Z :=
  match Prim2SF x with
  | S754_finite s m e =>
      (if s then -1 else 1) * Z.pos m * 2 ^ (e + 1074)
  | _ => 0
  end.

(** What one transaction adds to the balance of [address], in exact
    arithmetic. *)
Definition delta (amount : Transaction -> Z) (address : PublicKey) (t : Transaction)
  : Z :=
  (if PublicKey_eqb (recipient_address t) address then amount t else 0)
  - (if PublicKey_eqb (sender_address t) address then amount t else 0).

(** ** Float operations that do not round

    The exact value of a finite float, in units of [2^-1074]; nothing for
    an infinity or a NaN. *)
Definition exact_value (x : float) : option Z :=
  match Prim2SF x with
  | S754_zero _ => Some 0
  | S754_finite s m e =>
      if Z.leb 0 (e + 1074)
      then Some ((if s then -1 else 1) * Z.pos m * 2 ^ (e + 1074))
      else None
  | _ => None
  end.

(** [x - y] and [x + y] are finite and are the exact difference and sum of
    two finite operands. *)
Definition exact_sub (x y : float) : bool :=
  match exact_value x, exact_value y, exact_value (x - y)%float with
  | Some a, Some b, Some c => Z.eqb c (a - b)
  | _, _, _ => false
  end.

Definition exact_add (x y : float) : bool :=
  match exact_value x, exact_value y, exact_value (x + y)%float with
  | Some a, Some b, Some c => Z.eqb c (a + b)
  | _, _, _ => false
  end.

(** The operations that one pass of [get_balance]'s inner loop performs for
    [address] on transaction [t], the balance being [balance], are exact. *)
Definition step_exact (address : PublicKey) (balance : float) (t : Transaction)
  : bool :=
  (if PublicKey_eqb (sender_address t) address then exact_sub balance (value t)
   else true)
  && (if PublicKey_eqb (recipient_address t) address
      then exact_add (if PublicKey_eqb (sender_address t) address
                      then (balance - value t)%float else balance)
                     (value t)
      else true).

(** Every operation that [get_balance] performs for [address] on the
    transactions [ts], starting from [balance], is exact. *)
Fixpoint balance_exact (address : PublicKey) (ts : list Transaction)
  (balance : float) : bool :=
  match ts with
  | [] => true
  | t :: ts =>
      step_exact address balance t
      && balance_exact address ts
           (balance_step PrimFloat.add PrimFloat.sub value address balance t)
  end.

(** Every addition of [sum(xs)], starting from [acc], is exact. *)
Fixpoint sum_exact (xs : list float) (acc : float) : bool :=
  match xs with
  | [] => true
  | x :: xs => exact_add acc x && sum_exact xs (acc + x)%float
  end.

(** The value of a transaction as an exact amount ([0] when it is not
    finite). *)
Definition exact_amount (t : Transaction) : Z :=
  match exact_value (value t) with Some z => z | None => 0 end.

(** ** Further notions used in the properties below *)

(** The block at index [i] has number [i]. *)
Definition numbered (chain : list Block) : Prop :=
  forall (i : nat) (b : Block), chain !! i = Some b -> num b = Z.of_nat i.

(** The character [c] does not occur in [s]. *)
Fixpoint free_of (c : ascii) (s : string) : bool :=
  match s with
  | EmptyString => true
  | String a rest => negb (Ascii.eqb a c) && free_of c rest
  end.

Section MoreNotions.
Context {P : Primitives}.

(** A list of transactions as [mine_block] and [submit_transaction] build
    it: the reward for [miner] first, then transactions whose [validate]
    returns. *)
Definition reward_then_validated (miner : PublicKey) (ts : list Transaction) : Prop :=
  exists rest,
    ts = new_Transaction reward_sender miner REWARD_AMOUNT :: rest
    /\ Forall (fun t => fst (Transaction_validate t) = Return tt) rest.

Definition ledger_shape (self : BlockchainNode) : Prop :=
  blocks self <> []
  /\ reward_then_validated (miner_address self) (pending_transactions self)
  /\ forall (i : nat) (b : Block),
       blocks self !! i = Some b ->
       match i with
       | O => transactions b = []
       | S _ => reward_then_validated (miner_address self) (transactions b)
       end.

(** The cached hash of a block is the hash of its current header. *)
Definition cache_fresh (b : Block) : Prop := block_hash b = snd (Block_hash b).

(** Two transactions that [repr] renders alike: the same sender, recipient
    and signature, and values with the same [repr]. *)
Definition same_rendering (t t' : Transaction) : Prop :=
  sender_address t = sender_address t'
  /\ recipient_address t = recipient_address t'
  /\ repr_float (value t) = repr_float (value t')
  /\ signature t = signature t'.

(** Two facts about Python's [repr]: the text of a float holds no comma,
    and the text of a [bytes] value is a literal, which ends where its
    closing quote is, so that no such text continues into another one. *)
Definition floats_hold_no_comma : Prop :=
  forall x : float, free_of ","%char (repr_float x) = true.

Definition bytes_are_literals : Prop :=
  forall (b b' : bytes) (x x' : string),
    repr_bytes b +:+ x = repr_bytes b' +:+ x' -> b = b' /\ x = x'.

End MoreNotions.

(** ** Running the model: an instance of the library primitives

    Small computable stand-ins for the library functions, used to evaluate
    the methods on concrete inputs.  They are not the real SHA-256 or RSA:
    what is proved for every instance of [Primitives] holds for the real
    ones, and the facts below show that the statements have instances. *)

Module Demo.

Definition hex_digit (n : Z) : string :=
  String (nth (Z.to_nat n) (list_ascii_of_string "0123456789abcdef") "0"%char)
         EmptyString.

(** A 4-bit polynomial checksum as one hex digit, followed by two zero
    digits: a nonce search ends after a few increments. *)
Definition checksum (data : bytes) : Z :=
  fold_left (fun acc b => (acc * 31 + Z.of_N (Byte.to_N b)) mod 16) data 7.

Definition digest (data : bytes) : string :=
  hex_digit (checksum data) +:+ "00".

(** A signature verifies when it is the signed message reversed. *)
Definition verify (message signature : bytes) (_ : PublicKey) : outcome string :=
  if String.eqb (string_of_list_byte signature) (string_of_list_byte (rev message))
  then Return "SHA-256"
  else Raise (Exn "VerificationError" "Verification failed").

(** A float as sign, mantissa and binary exponent. *)
Definition float_text (x : float) : string :=
  match Prim2SF x with
  | S754_zero false => "0.0"
  | S754_zero true => "-0.0"
  | S754_infinity false => "inf"
  | S754_infinity true => "-inf"
  | S754_nan => "nan"
  | S754_finite s m e =>
      (if s then "-" else EmptyString) +:+ str_int (Z.pos m) +:+ "p" +:+ str_int e
  end.

Definition bytes_text (b : bytes) : string :=
  "b'" +:+ string_of_list_byte b +:+ "'".

#[export] Instance primitives : Primitives :=
  {| sha256_hexdigest := digest;
     rsa_sign := fun message _ => Return (rev message);
     rsa_verify := verify;
     repr_float := float_text; repr_bytes := bytes_text |}.

Definition any_key : PrivateKey :=
  {| priv_n := 3233; priv_e := 17; priv_d := 413; priv_p := 61; priv_q := 53 |}.

(** [t.sign(key)], keeping the transaction. *)
Definition signed (t : Transaction) : Transaction := snd (Transaction_sign t any_key).

Definition miner : PublicKey := {| key_n := 3233; key_e := 17 |}.
Definition alice : PublicKey := {| key_n := 3127; key_e := 3 |}.
Definition bob : PublicKey := {| key_n := 2773; key_e := 17 |}.

(** A node of [miner] with the predicate that [__init__] installs. *)
Definition node (chain : list Block) (pool : list Transaction) : BlockchainNode :=
  {| miner_address := miner; blocks := chain; pending_transactions := pool;
     proof_of_work_func := fun x => endswith x "000" |}.

Definition reward : Transaction := new_Transaction reward_sender miner REWARD_AMOUNT.

(** The chain after construction at time 1703089267.25 and one more
    [mine_block] at 1703089268.5. *)
Definition genesis : Block :=
  {| num := 0; timestamp := 1703089267.25; prev_block_hash := "-";
     transactions := []; block_hash := "000"; nonce := 4 |}.

Definition block1 : Block :=
  {| num := 1; timestamp := 1703089268.5; prev_block_hash := "000";
     transactions := [reward]; block_hash := "000"; nonce := 5 |}.

(** First continuation: the miner pays [alice] three times the amount
    [2^-52], then mines. *)
Definition tiny : Transaction := signed (new_Transaction miner alice 0x1p-52).

Definition block2 : Block :=
  {| num := 2; timestamp := 1703089269.75; prev_block_hash := "000";
     transactions := [reward; tiny; tiny; tiny]; block_hash := "000"; nonce := 7 |}.

(** Second continuation: the miner pays [alice] 0.5, then mines; [alice],
    who now owns 0.5, tries to pay [bob] 1.0. *)
Definition half : Transaction := signed (new_Transaction miner alice 0.5).

Definition block2_half : Block :=
  {| num := 2; timestamp := 1703089269.75; prev_block_hash := "000";
     transactions := [reward; half]; block_hash := "000"; nonce := 50 |}.

Definition overdraft : Transaction := signed (new_Transaction alice bob 1).

(** A transaction of 0.8 whose signature was overwritten after signing. *)
Definition forged : Transaction :=
  set_signature (encode "invalid_signature")
    (signed (new_Transaction miner alice 0x1.999999999999ap-1)).

(** A chain whose middle block was given another timestamp after mining. *)
Definition block1_redated : Block :=
  {| num := 1; timestamp := 1703089268.75; prev_block_hash := "000";
     transactions := [reward]; block_hash := "000"; nonce := 5 |}.

End Demo.

(** Further inputs for the same instance. *)
Module Cases.
Import Demo.

(** The notebook's [t2]: the miner pays 1.0. *)
Definition one : Transaction := signed (new_Transaction miner alice 1).

Definition block2_one : Block :=
  {| num := 2; timestamp := 1703089269.75; prev_block_hash := "000";
     transactions := [reward; one]; block_hash := "000"; nonce := 50 |}.

(** [alice], who owns 0.5, pays [bob] 0.5 twice before the next block. *)
Definition spend : Transaction := signed (new_Transaction alice bob 0.5).

Definition block3_spend : Block :=
  {| num := 3; timestamp := 1703089271; prev_block_hash := "000";
     transactions := [reward; spend; spend]; block_hash := "000"; nonce := 10 |}.

(** A transaction of [alice] whose first signature was invalid and which
    was signed again after a failed [validate]. *)
Definition resigned : Transaction :=
  signed (snd (Transaction_validate
                 (set_signature (encode "invalid_signature")
                    (new_Transaction alice bob 1)))).

(** Signed transactions of [bob], who owns nothing: a NaN value, a negative
    value and a positive one. *)
Definition void : Transaction := signed (new_Transaction bob alice nan).
Definition take : Transaction := signed (new_Transaction bob miner (-2)).
Definition wish : Transaction := signed (new_Transaction bob alice 1).

(** The three-block chain with every cache overwritten. *)
Definition stale_chain : list Block :=
  [set_block_hash "stale" genesis; set_block_hash "f00" block1;
   set_block_hash EmptyString block2].

End Cases.

(** The same instance with a [repr] of [bytes] that is a literal, as
    Python's is: every byte escaped by a percent sign, between quotes. *)
Module Literal.

Fixpoint escaped (b : bytes) : string :=
  match b with
  | [] => "'"
  | x :: rest => String "%"%char (String (ascii_of_byte x) (escaped rest))
  end.

Definition bytes_literal (b : bytes) : string := "b'" +:+ escaped b.

Definition primitives : Primitives :=
  {| sha256_hexdigest := Demo.digest;
     rsa_sign := fun message _ => Return (rev message);
     rsa_verify := Demo.verify;
     repr_float := Demo.float_text; repr_bytes := bytes_literal |}.

(** Two blocks that differ in the recipient of their one transaction. *)
Definition paying (recipient : PublicKey) : Block :=
  {| num := 2; timestamp := 1703089269.75; prev_block_hash := "000";
     transactions := [new_Transaction Demo.miner recipient 0.5];
     block_hash := "000"; nonce := 0 |}.

End Literal.

(** * Properties *)

(** ** Strings *)

Lemma ascii_list_app (s t : string) :
  list_ascii_of_string (s +:+ t) = list_ascii_of_string s ++ list_ascii_of_string t.
Proof. induction s as [|c s IH]; simpl; [reflexivity | now rewrite IH]. Qed.

Lemma append_inv_tail (s s' t : string) : s +:+ t = s' +:+ t -> s = s'.
Proof.
  intros H. apply (f_equal list_ascii_of_string) in H.
  rewrite !ascii_list_app in H. apply app_inv_tail in H.
  rewrite <- (string_of_list_ascii_of_string s), H.
  apply string_of_list_ascii_of_string.
Qed.

Lemma append_inv_head (s t t' : string) : s +:+ t = s +:+ t' -> t = t'.
Proof. induction s as [|c s IH]; simpl; intros H; [assumption | injection H; auto]. Qed.

Lemma encode_inj (s t : string) : encode s = encode t -> s = t.
Proof.
  unfold encode. intros H.
  rewrite <- (string_of_list_byte_of_string s), H.
  apply string_of_list_byte_of_string.
Qed.

Lemma str_int_inj (i j : Z) : str_int i = str_int j -> i = j.
Proof.
  unfold str_int. intros H.
  assert (Hnil : forall z, Z.to_int z <> Decimal.Pos Decimal.Nil
                           /\ Z.to_int z <> Decimal.Neg Decimal.Nil).
  { intros [|p|p]; simpl; split; try discriminate;
      intros E; injection E; apply DecimalPos.Unsigned.to_uint_nonnil. }
  apply DecimalZ.to_int_inj.
  assert (E : NilZero.int_of_string (NilZero.string_of_int (Z.to_int i))
              = NilZero.int_of_string (NilZero.string_of_int (Z.to_int j)))
    by now rewrite H.
  rewrite !NilZero.isi in E by apply Hnil.
  now injection E.
Qed.

Section Proofs.
Context {P : Primitives}.

(** ** Block.get_header and Block.hash *)

Lemma get_header_set_block_hash (h : string) (b : Block) :
  get_header (set_block_hash h b) = get_header b.
Proof. reflexivity. Qed.

Lemma recomputed_hash_set_block_hash (h : string) (b : Block) :
  recomputed_hash (set_block_hash h b) = recomputed_hash b.
Proof. reflexivity. Qed.

(** ** Transaction.validate and get_validation_failure_reason *)

Lemma Transaction_validate_Return (t : Transaction) :
  fst (Transaction_validate t) = Return tt -> snd (Transaction_validate t) = t.
Proof.
  unfold Transaction_validate.
  destruct (rsa_verify _ _ _); simpl; [reflexivity | discriminate].
Qed.

Lemma Transaction_validate_Raise (t : Transaction) (e : exn) :
  fst (Transaction_validate t) = Raise e ->
  snd (Transaction_validate t) = set_validation_failure_reason (exn_str e) t.
Proof.
  unfold Transaction_validate.
  destruct (rsa_verify _ _ _); simpl; [discriminate | congruence].
Qed.

Lemma never_failed_no_reason (t : Transaction) :
  never_failed t -> validation_failure_reason t = None.
Proof.
  induction 1 as [| t sig _ IH | t _ IH Hv | t key _ IH Hs]; simpl; auto.
  - now rewrite Transaction_validate_Return.
  - revert Hs. unfold Transaction_sign.
    destruct (rsa_sign _ _) as [sig|e]; simpl; [| discriminate].
    intros Hv. now rewrite Transaction_validate_Return.
Qed.

(** C10. On a transaction whose [validate] has never failed,
    [get_validation_failure_reason] raises [AttributeError] (it does not
    return [None]); right after a [validate] that raised [e], it returns
    [str(e)]. *)
Theorem get_validation_failure_reason_spec (t : Transaction) :
  (never_failed t -> get_validation_failure_reason t = Raise AttributeError_reason)
  /\ (forall e : exn,
        fst (Transaction_validate t) = Raise e ->
        get_validation_failure_reason (snd (Transaction_validate t))
        = Return (exn_str e)).
Proof.
  split.
  - intros H. unfold get_validation_failure_reason.
    now rewrite (never_failed_no_reason t H).
  - intros e He. now rewrite (Transaction_validate_Raise t e He).
Qed.

(** ** The nonce search *)

(** What the search keeps and what it establishes. *)
Lemma pow_search_Some (fuel : nat) (pow : string -> bool) (b : Block) (proof : Z)
  (found : Block) :
  pow_search fuel pow b proof = Some found ->
  num found = num b /\ timestamp found = timestamp b
  /\ prev_block_hash found = prev_block_hash b
  /\ transactions found = transactions b
  /\ pow (recomputed_hash found) = true
  /\ block_hash found = recomputed_hash found.
Proof.
  revert b proof.
  induction fuel as [|fuel IH]; intros b proof; simpl;
    destruct (pow (sha256_hexdigest (get_header b))) eqn:Hpow;
    try discriminate.
  1, 2: intros [= <-]; unfold recomputed_hash; simpl;
        rewrite get_header_set_block_hash, Hpow; auto 10.
  intros H. apply IH in H. simpl in H. exact H.
Qed.

(** The search is a function of the header fields: the cache it starts
    from does not matter. *)
Lemma pow_search_set_block_hash (fuel : nat) (pow : string -> bool) (h : string)
  (b : Block) (proof : Z) :
  pow_search fuel pow (set_block_hash h b) proof = pow_search fuel pow b proof.
Proof. destruct fuel; reflexivity. Qed.

(** Enough fuel finds the nonce: if the block passes with nonce
    [proof + k], then [k] increments suffice. *)
Lemma pow_search_finds (k : nat) (pow : string -> bool) (b : Block) (proof : Z) :
  nonce b = proof ->
  pow (recomputed_hash (set_nonce (proof + Z.of_nat k) b)) = true ->
  exists found, pow_search k pow b proof = Some found.
Proof.
  revert b proof.
  induction k as [|k IH]; intros b proof Hn Hk.
  - replace (proof + Z.of_nat 0) with (nonce b) in Hk by lia.
    simpl. change (sha256_hexdigest (get_header b)) with (recomputed_hash b).
    replace (recomputed_hash b) with (recomputed_hash (set_nonce (nonce b) b))
      by now destruct b.
    rewrite Hk. eauto.
  - simpl. destruct (pow (sha256_hexdigest (get_header b))); [eauto |].
    apply IH; [reflexivity |].
    replace (proof + 1 + Z.of_nat k) with (proof + Z.of_nat (S k)) by lia.
    exact Hk.
Qed.

Lemma pow_search_more_fuel (fuel extra : nat) (pow : string -> bool) (b : Block)
  (proof : Z) (found : Block) :
  pow_search fuel pow b proof = Some found ->
  pow_search (fuel + extra) pow b proof = Some found.
Proof.
  revert b proof.
  induction fuel as [|fuel IH]; intros b proof; simpl.
  - destruct extra; simpl;
      destruct (pow (sha256_hexdigest (get_header b))); congruence.
  - destruct (pow (sha256_hexdigest (get_header b))); [congruence | apply IH].
Qed.

(** ** mine_block *)

Lemma mine_block_unfold (fuel : nat) (now : float) (self : BlockchainNode) :
  mine_block fuel now self
  = match pow_search fuel (proof_of_work_func self) (candidate_block now self) 0 with
    | None => None
    | Some new_block =>
        Some ({| miner_address := miner_address self;
                 blocks := refresh_last (blocks self) ++ [new_block];
                 pending_transactions := [reward_transaction self];
                 proof_of_work_func := proof_of_work_func self |},
              [mined_message new_block])
    end.
Proof.
  unfold mine_block, candidate_block, refresh_last.
  destruct (blocks self) as [|b chain] eqn:Hb; [reflexivity |].
  change (length (b :: chain) <=? 0)%nat with false. cbv iota.
  destruct (last (b :: chain)) as [prev_block|] eqn:Hlast; reflexivity.
Qed.

Lemma core_refresh_last (chain : list Block) :
  core <$> refresh_last chain = core <$> chain.
Proof.
  unfold refresh_last.
  destruct (last chain) as [prev_block|] eqn:Hlast; [| reflexivity].
  rewrite list_fmap_insert. apply list_insert_id.
  rewrite list_lookup_fmap.
  rewrite last_lookup in Hlast.
  replace (length chain - 1)%nat with (Nat.pred (length chain)) by lia.
  now rewrite Hlast.
Qed.

Lemma length_refresh_last (chain : list Block) :
  length (refresh_last chain) = length chain.
Proof.
  rewrite <- (length_fmap core (refresh_last chain)), core_refresh_last.
  apply length_fmap.
Qed.

Lemma core_lookup (c1 c2 : list Block) (i : nat) (b : Block) :
  core <$> c1 = core <$> c2 -> c2 !! i = Some b ->
  exists b', c1 !! i = Some b' /\ core b' = core b.
Proof.
  intros E Hb.
  assert (H : (core <$> c1) !! i = Some (core b))
    by now rewrite E, list_lookup_fmap, Hb.
  rewrite list_lookup_fmap in H.
  destruct (c1 !! i) as [b'|]; simpl in H; [| discriminate].
  exists b'. split; [reflexivity | congruence].
Qed.

Lemma recomputed_hash_core (b b' : Block) :
  core b = core b' -> recomputed_hash b = recomputed_hash b'.
Proof.
  intros E.
  rewrite <- (recomputed_hash_set_block_hash EmptyString b),
          <- (recomputed_hash_set_block_hash EmptyString b').
  exact (f_equal recomputed_hash E).
Qed.

Lemma prev_block_hash_core (b b' : Block) :
  core b = core b' -> prev_block_hash b = prev_block_hash b'.
Proof. intros E. exact (f_equal prev_block_hash E). Qed.

Lemma last_refresh_last (chain : list Block) (b : Block) :
  last (refresh_last chain) = Some b ->
  exists b', last chain = Some b' /\ core b' = core b.
Proof.
  rewrite !last_lookup, length_refresh_last.
  apply core_lookup. symmetry. apply core_refresh_last.
Qed.

(** Mining returns whenever some nonce passes. *)
Lemma mine_block_returns (k : nat) (now : float) (self : BlockchainNode) :
  proof_of_work_func self
    (recomputed_hash (set_nonce (Z.of_nat k) (candidate_block now self))) = true ->
  exists self' out, mine_block k now self = Some (self', out).
Proof.
  intros H. rewrite mine_block_unfold.
  destruct (pow_search_finds k (proof_of_work_func self)
              (candidate_block now self) 0 eq_refl H) as [found ->].
  eauto.
Qed.

(** C7. Construction returns as soon as some nonce makes the genesis header
    hash end in [000], and the node it returns has a chain of exactly one
    block, numbered 0, with previous hash ["-"] and no transactions. *)
Theorem fresh_node_has_genesis (now : float) (miner : PublicKey) :
  (forall k : nat,
      endswith
        (recomputed_hash
           {| num := 0; timestamp := now; prev_block_hash := "-";
              transactions := []; block_hash := EmptyString;
              nonce := Z.of_nat k |}) "000" = true ->
      exists self out, new_BlockchainNode k now miner = Some (self, out))
  /\ (forall fuel self out,
        new_BlockchainNode fuel now miner = Some (self, out) ->
        length (blocks self) = 1%nat
        /\ exists genesis,
             blocks self = [genesis] /\ num genesis = 0
             /\ prev_block_hash genesis = "-" /\ transactions genesis = []).
Proof.
  split.
  - intros k Hk. apply mine_block_returns. exact Hk.
  - intros fuel self out. unfold new_BlockchainNode.
    rewrite mine_block_unfold.
    destruct (pow_search fuel _ _ 0) as [found|] eqn:Hs; [| discriminate].
    intros [= <- _]. simpl.
    apply pow_search_Some in Hs. simpl in Hs.
    split; [reflexivity |]. exists found. intuition.
Qed.

Lemma Forall_core (Q : Block -> Prop) (c1 c2 : list Block) :
  (forall b b', core b = core b' -> Q b -> Q b') ->
  core <$> c1 = core <$> c2 -> Forall Q c1 -> Forall Q c2.
Proof.
  intros HQ E H. apply Forall_lookup. intros i b Hb.
  destruct (core_lookup c1 c2 i b E Hb) as (b' & Hb' & Hc).
  apply (HQ b' b Hc). exact (proj1 (Forall_lookup Q c1) H i b' Hb').
Qed.

Lemma submit_transaction_accepted (self : BlockchainNode) (t : Transaction) :
  fst (Transaction_validate t) = Return tt ->
  PrimFloat.ltb (get_balance self (sender_address t)) (value t) = false ->
  submit_transaction self t
  = (Return tt,
     {| self_ := set_pending_transactions (pending_transactions self ++ [t]) self;
        transaction_ := t;
        stdout := ["Transaction submitted successfully."] |}).
Proof.
  intros Hv Hb.
  pose proof (Transaction_validate_Return t Hv) as Ht.
  unfold submit_transaction, try_except, submit_try, bind, validate_transaction.
  simpl. destruct (Transaction_validate t) as [o t']. simpl in *. subst.
  simpl. rewrite Hb. reflexivity.
Qed.

Lemma submit_transaction_invalid (self : BlockchainNode) (t : Transaction) (e : exn) :
  fst (Transaction_validate t) = Raise e ->
  submit_transaction self t
  = (Raise e,
     {| self_ := self;
        transaction_ := set_validation_failure_reason (exn_str e) t;
        stdout := failure_report e t ++ reason_report (exn_str e) |}).
Proof.
  intros Hv.
  pose proof (Transaction_validate_Raise t e Hv) as Ht.
  unfold submit_transaction, try_except, submit_try, bind, validate_transaction.
  simpl. destruct (Transaction_validate t) as [o t']. simpl in *. subst.
  unfold submit_except, bind, print, get_transaction, lift, reason_report. simpl.
  destruct (String.eqb (exn_str e) EmptyString); reflexivity.
Qed.

Lemma submit_transaction_insufficient (self : BlockchainNode) (t : Transaction) :
  fst (Transaction_validate t) = Return tt ->
  PrimFloat.ltb (get_balance self (sender_address t)) (value t) = true ->
  submit_transaction self t
  = (match validation_failure_reason t with
     | Some _ =>
         Raise (insufficient_tokens (value t) (get_balance self (sender_address t)))
     | None => Raise AttributeError_reason
     end,
     {| self_ := self;
        transaction_ := t;
        stdout :=
          failure_report
            (insufficient_tokens (value t) (get_balance self (sender_address t))) t
          ++ match validation_failure_reason t with
             | Some reason => reason_report reason
             | None => []
             end |}).
Proof.
  intros Hv Hb.
  pose proof (Transaction_validate_Return t Hv) as Ht.
  unfold submit_transaction, try_except, submit_try, bind, validate_transaction.
  simpl. destruct (Transaction_validate t) as [o t']. simpl in *. subst.
  simpl. rewrite Hb.
  unfold submit_except, bind, print, get_transaction, lift, reason_report,
    get_validation_failure_reason. simpl.
  destruct (validation_failure_reason t) as [reason|]; [| reflexivity].
  simpl. destruct (String.eqb reason EmptyString); reflexivity.
Qed.

(** The three ways a call of [submit_transaction] can go. *)
Lemma submit_transaction_cases (self : BlockchainNode) (t : Transaction) :
  (exists e, fst (Transaction_validate t) = Raise e)
  \/ (fst (Transaction_validate t) = Return tt
      /\ PrimFloat.ltb (get_balance self (sender_address t)) (value t) = true)
  \/ (fst (Transaction_validate t) = Return tt
      /\ PrimFloat.ltb (get_balance self (sender_address t)) (value t) = false).
Proof.
  destruct (fst (Transaction_validate t)) as [[]|e]; [| eauto].
  destruct (PrimFloat.ltb _ _); auto.
Qed.

(** [submit_transaction] never touches the chain, the miner or the
    predicate. *)
Lemma submit_transaction_keeps (self : BlockchainNode) (t : Transaction) :
  blocks (self_ (snd (submit_transaction self t))) = blocks self
  /\ miner_address (self_ (snd (submit_transaction self t))) = miner_address self
  /\ proof_of_work_func (self_ (snd (submit_transaction self t)))
     = proof_of_work_func self.
Proof.
  destruct (submit_transaction_cases self t) as [[e He] | [[Hv Hb] | [Hv Hb]]].
  - rewrite (submit_transaction_invalid self t e He). auto.
  - rewrite (submit_transaction_insufficient self t Hv Hb). auto.
  - rewrite (submit_transaction_accepted self t Hv Hb). auto.
Qed.

(** ** Invariants of the reachable nodes *)

Lemma reachable_predicate (self : BlockchainNode) :
  reachable self -> proof_of_work_func self = fun x => endswith x "000".
Proof.
  induction 1 as [fuel now miner self out H | self t _ IH
                 | self fuel now self' out _ IH H].
  - unfold new_BlockchainNode in H. rewrite mine_block_unfold in H.
    destruct (pow_search _ _ _ _); [| discriminate].
    injection H as <- _. reflexivity.
  - now rewrite (proj2 (proj2 (submit_transaction_keeps self t))).
  - rewrite mine_block_unfold in H.
    destruct (pow_search _ _ _ _); [| discriminate].
    injection H as <- _. exact IH.
Qed.

(** C2. The block that [mine_block] appends passes the node's predicate
    when it is appended: the call adds exactly one block at the end, that
    block's hash satisfies [proof_of_work_func], and its cache holds that
    hash.  Hence every block of a reachable chain passes the predicate. *)
Theorem mined_block_passes_pow (self : BlockchainNode) :
  (forall fuel now self' out,
      mine_block fuel now self = Some (self', out) ->
      exists chain new_block,
        blocks self' = chain ++ [new_block]
        /\ core <$> chain = core <$> blocks self
        /\ proof_of_work_func self' = proof_of_work_func self
        /\ proof_of_work_func self (snd (Block_hash new_block)) = true
        /\ fst (Block_validate new_block (proof_of_work_func self))
           = new_block
        /\ snd (Block_validate new_block (proof_of_work_func self)) = true)
  /\ (reachable self ->
      Forall (fun b => proof_of_work_func self (snd (Block_hash b)) = true)
             (blocks self)).
Proof.
  split.
  - intros fuel now self' out. rewrite mine_block_unfold.
    destruct (pow_search fuel _ _ 0) as [found|] eqn:Hs; [| discriminate].
    intros [= <- _]. simpl.
    apply pow_search_Some in Hs.
    destruct Hs as (_ & _ & _ & _ & Hpow & Hcache).
    exists (refresh_last (blocks self)), found.
    repeat split; auto using core_refresh_last.
    unfold Block_validate, Block_hash; simpl.
    change (sha256_hexdigest (get_header found)) with (recomputed_hash found).
    rewrite <- Hcache. now destruct found.
  - induction 1 as [fuel now miner self out H | self t _ IH
                   | self fuel now self' out Hr IH H].
    + unfold new_BlockchainNode in H. rewrite mine_block_unfold in H.
      destruct (pow_search _ _ _ _) as [found|] eqn:Hs; [| discriminate].
      injection H as <- _. simpl.
      apply pow_search_Some in Hs. repeat constructor. apply Hs.
    + destruct (submit_transaction_keeps self t) as (-> & _ & ->). exact IH.
    + rewrite mine_block_unfold in H.
      destruct (pow_search _ _ _ _) as [found|] eqn:Hs; [| discriminate].
      injection H as <- _. simpl.
      apply pow_search_Some in Hs.
      apply Forall_app. split; [| repeat constructor; apply Hs].
      revert IH. apply Forall_core; [| symmetry; apply core_refresh_last].
      intros b b' E. cbv beta.
      pose proof (recomputed_hash_core b b' E) as R.
      unfold recomputed_hash in R. simpl in R. now rewrite R.
Qed.

(** C6. When [mine_block] returns, the pool holds exactly one transaction:
    unsigned, sent by [PublicKey(0, 0)] to the miner, of value
    [REWARD_AMOUNT], which is [2.0]. *)
Theorem pool_after_mine_block (fuel : nat) (now : float)
  (self self' : BlockchainNode) (out : list string) :
  mine_block fuel now self = Some (self', out) ->
  exists reward,
    pending_transactions self' = [reward]
    /\ signature reward = []
    /\ sender_address reward = {| key_n := 0; key_e := 0 |}
    /\ recipient_address reward = miner_address self'
    /\ miner_address self' = miner_address self
    /\ value reward = REWARD_AMOUNT
    /\ REWARD_AMOUNT = 2%float.
Proof.
  rewrite mine_block_unfold.
  destruct (pow_search fuel _ _ 0) as [found|]; [| discriminate].
  intros [= <- _]. simpl.
  exists (reward_transaction self). repeat split.
Qed.

Lemma linked_core (c1 c2 : list Block) :
  core <$> c1 = core <$> c2 -> linked c1 -> linked c2.
Proof.
  intros E H i p c Hp Hc.
  destruct (core_lookup c1 c2 i p E Hp) as (p' & Hp' & Ep).
  destruct (core_lookup c1 c2 (S i) c E Hc) as (c' & Hc' & Ec).
  rewrite <- (prev_block_hash_core c' c Ec).
  change (snd (Block_hash p)) with (recomputed_hash p).
  rewrite <- (recomputed_hash_core p' p Ep).
  exact (H i p' c' Hp' Hc').
Qed.

Lemma linked_snoc (chain : list Block) (b : Block) :
  linked chain ->
  (forall prev_block, last chain = Some prev_block ->
                      prev_block_hash b = snd (Block_hash prev_block)) ->
  linked (chain ++ [b]).
Proof.
  intros H Hb i p c Hp Hc.
  destruct (decide (S i < length chain)%nat) as [Hlt|Hge].
  - rewrite lookup_app_l in Hp by lia. rewrite lookup_app_l in Hc by lia.
    exact (H i p c Hp Hc).
  - assert (Hlen : S i = length chain).
    { apply lookup_lt_Some in Hc. rewrite length_app in Hc. simpl in Hc. lia. }
    rewrite lookup_app_l in Hp by lia.
    rewrite lookup_app_r in Hc by lia.
    replace (S i - length chain)%nat with 0%nat in Hc by lia.
    injection Hc as <-. apply Hb.
    rewrite last_lookup. now replace (Nat.pred (length chain)) with i by lia.
Qed.

(** What [mine_block] appends points at the block before it. *)
Lemma mine_block_linked (fuel : nat) (now : float) (self self' : BlockchainNode)
  (out : list string) :
  linked (blocks self) -> mine_block fuel now self = Some (self', out) ->
  linked (blocks self') /\ blocks self' <> [].
Proof.
  intros Hl. rewrite mine_block_unfold.
  destruct (pow_search fuel _ _ 0) as [found|] eqn:Hs; [| discriminate].
  intros [= <- _]. simpl. split; [| now destruct (refresh_last (blocks self))].
  apply pow_search_Some in Hs. destruct Hs as (_ & _ & Hprev & _).
  apply linked_snoc.
  - revert Hl. apply linked_core. symmetry. apply core_refresh_last.
  - intros prev_block Hlast.
    destruct (last_refresh_last _ _ Hlast) as (p & Hp & Ep).
    rewrite Hprev. unfold candidate_block; simpl. rewrite Hp.
    apply (recomputed_hash_core p prev_block Ep).
Qed.

(** C1. In every node reachable by construction followed by calls of
    [submit_transaction] and [mine_block], the chain is not empty and every
    block after the first stores the recomputed hash of the block before
    it. *)
Theorem reachable_chain_linked (self : BlockchainNode) :
  reachable self ->
  blocks self <> []
  /\ forall i prev_block current_block,
       blocks self !! i = Some prev_block ->
       blocks self !! S i = Some current_block ->
       prev_block_hash current_block = snd (Block_hash prev_block).
Proof.
  induction 1 as [fuel now miner self out H | self t _ IH
                 | self fuel now self' out _ IH H].
  - apply and_comm. apply (mine_block_linked fuel now _ self out) in H; [exact H |].
    intros i p c Hp. discriminate Hp.
  - now rewrite (proj1 (submit_transaction_keeps self t)).
  - apply and_comm. apply (mine_block_linked fuel now self self' out); tauto.
Qed.

(** ** submit_transaction *)

(** C4, as the code has it.  When the signature does not verify, or it does
    and the sender's balance is below the value, [submit_transaction] prints
    the failure and the transaction's fields, leaves the node (and so the
    pool) as it was, and lets an exception leave the call; for a signature
    that does not verify, that exception is the one [validate] raised. *)
Theorem submit_transaction_failure_propagates (self : BlockchainNode)
  (t : Transaction) :
  (forall e,
      fst (Transaction_validate t) = Raise e ->
      fst (submit_transaction self t) = Raise e
      /\ self_ (snd (submit_transaction self t)) = self
      /\ stdout (snd (submit_transaction self t))
         = failure_report e t ++ reason_report (exn_str e))
  /\ (fst (Transaction_validate t) = Return tt ->
      PrimFloat.ltb (get_balance self (sender_address t)) (value t) = true ->
      (exists e, fst (submit_transaction self t) = Raise e)
      /\ self_ (snd (submit_transaction self t)) = self
      /\ exists rest,
           stdout (snd (submit_transaction self t))
           = failure_report
               (insufficient_tokens (value t)
                  (get_balance self (sender_address t))) t ++ rest).
Proof.
  split.
  - intros e He. now rewrite (submit_transaction_invalid self t e He).
  - intros Hv Hb. rewrite (submit_transaction_insufficient self t Hv Hb). simpl.
    repeat split; eauto.
    destruct (validation_failure_reason t); eauto.
Qed.

(** C5. A transaction whose signature verifies and whose value exceeds the
    sender's balance is rejected: the call raises, the first line it prints
    names the insufficient funds, and the pool is as it was.  (What leaves
    the call is the insufficient-funds exception when the transaction has a
    recorded validation failure, and the [AttributeError] of the handler's
    lookup when it has none.)  The pool changes only when both checks pass,
    and then the transaction is appended to it. *)
Theorem insufficient_funds_rejected (self : BlockchainNode) (t : Transaction) :
  (fst (Transaction_validate t) = Return tt ->
   PrimFloat.ltb (get_balance self (sender_address t)) (value t) = true ->
   fst (submit_transaction self t)
   = Raise (match validation_failure_reason t with
            | Some _ =>
                insufficient_tokens (value t) (get_balance self (sender_address t))
            | None => AttributeError_reason
            end)
   /\ head (stdout (snd (submit_transaction self t)))
      = Some ("Transaction submission failed: "
              +:+ "Insufficient tokens available (" +:+ repr_float (value t)
              +:+ " required, "
              +:+ repr_float (get_balance self (sender_address t))
              +:+ " available)")
   /\ pending_transactions (self_ (snd (submit_transaction self t)))
      = pending_transactions self)
  /\ (pending_transactions (self_ (snd (submit_transaction self t)))
      <> pending_transactions self ->
      fst (Transaction_validate t) = Return tt
      /\ PrimFloat.ltb (get_balance self (sender_address t)) (value t) = false)
  /\ (fst (Transaction_validate t) = Return tt ->
      PrimFloat.ltb (get_balance self (sender_address t)) (value t) = false ->
      fst (submit_transaction self t) = Return tt
      /\ pending_transactions (self_ (snd (submit_transaction self t)))
         = pending_transactions self ++ [t]).
Proof.
  repeat apply conj.
  - intros Hv Hb. rewrite (submit_transaction_insufficient self t Hv Hb). simpl.
    repeat split. now destruct (validation_failure_reason t).
  - intros Hne.
    destruct (submit_transaction_cases self t) as [[e He] | [[Hv Hb] | [Hv Hb]]].
    + rewrite (submit_transaction_invalid self t e He) in Hne. now elim Hne.
    + rewrite (submit_transaction_insufficient self t Hv Hb) in Hne. now elim Hne.
    + auto.
  - intros Hv Hb. now rewrite (submit_transaction_accepted self t Hv Hb).
Qed.

(** ** validate_chain *)

Lemma core_insert_cache (chain : list Block) (i : nat) (b : Block) (h : string) :
  chain !! i = Some b -> core <$> <[i := set_block_hash h b]> chain = core <$> chain.
Proof.
  intros H. rewrite list_fmap_insert. apply list_insert_id.
  now rewrite list_lookup_fmap, H.
Qed.

Lemma linkage_ok_core (p p' c c' : Block) :
  core p = core p' -> core c = core c' -> linkage_ok p c = linkage_ok p' c'.
Proof.
  intros Ep Ec. unfold linkage_ok.
  now rewrite (prev_block_hash_core c c' Ec), (recomputed_hash_core p p' Ep).
Qed.

Lemma pow_ok_core (pow : string -> bool) (c c' : Block) :
  core c = core c' -> pow_ok pow c = pow_ok pow c'.
Proof. intros Ec. unfold pow_ok. now rewrite (recomputed_hash_core c c' Ec). Qed.

Lemma num_core (c c' : Block) : core c = core c' -> num c = num c'.
Proof. intros E. exact (f_equal num E). Qed.

Lemma pair_passes_core (pow : string -> bool) (c1 c2 : list Block) (j : nat) :
  core <$> c1 = core <$> c2 -> pair_passes pow c1 j -> pair_passes pow c2 j.
Proof.
  intros E H p c Hp Hc.
  destruct (core_lookup c1 c2 _ p E Hp) as (p' & Hp' & Ep).
  destruct (core_lookup c1 c2 _ c E Hc) as (c' & Hc' & Ec).
  rewrite <- (linkage_ok_core p' p c' c Ep Ec), <- (pow_ok_core pow c' c Ec).
  exact (H p' c' Hp' Hc').
Qed.

Lemma pair_fails_core (pow : string -> bool) (c1 c2 : list Block) (j : nat)
  (line : string) :
  core <$> c1 = core <$> c2 -> pair_fails pow c2 j line -> pair_fails pow c1 j line.
Proof.
  intros E (p & c & Hp & Hc & H).
  destruct (core_lookup c1 c2 _ p E Hp) as (p' & Hp' & Ep).
  destruct (core_lookup c1 c2 _ c E Hc) as (c' & Hc' & Ec).
  exists p', c'. repeat split; try assumption.
  rewrite (linkage_ok_core p' p c' c Ep Ec), (pow_ok_core pow c' c Ec).
  unfold linkage_message, pow_message. now rewrite (num_core c' c Ec).
Qed.

Lemma loop_reports_core (pow : string -> bool) (c1 c2 : list Block) (i n : nat)
  (r : option string) :
  core <$> c1 = core <$> c2 -> loop_reports pow c2 i n r -> loop_reports pow c1 i n r.
Proof.
  intros E. destruct r as [line|]; simpl.
  - intros (j & Hj & Hf & Hbefore). exists j.
    split; [exact Hj |]. split.
    + now apply (pair_fails_core pow c1 c2).
    + intros j' Hj'. apply (pair_passes_core pow c2 c1); auto.
  - intros H j Hj. apply (pair_passes_core pow c2 c1); auto.
Qed.

(** The loop never raises, rewrites caches only, and reports the first pair
    that fails. *)
Lemma validate_chain_loop_spec (pow : string -> bool) (n : nat) :
  forall (i : nat) (chain : list Block),
    (1 <= i)%nat -> (0 < n -> i + n <= length chain)%nat ->
    exists r chain',
      validate_chain_loop pow (seq i n) chain = (Return r, chain')
      /\ core <$> chain' = core <$> chain
      /\ loop_reports pow chain i n r.
Proof.
  induction n as [|n IH]; intros i chain Hi Hlen.
  - exists None, chain. split; [reflexivity |]. split; [reflexivity |].
    intros j Hj. lia.
  - assert (Hlen' : (i + S n <= length chain)%nat) by lia.
    destruct (lookup_lt_is_Some_2 chain (i - 1)) as [p Hp]; [lia |].
    destruct (lookup_lt_is_Some_2 chain i) as [c Hc]; [lia |].
    assert (Hat : pair_passes pow chain i \/ exists line,
                    pair_fails pow chain i line
                    /\ validate_chain_loop pow (seq i (S n)) chain
                       = (Return (Some line),
                          if linkage_ok p c
                          then <[i := fst (Block_hash c)]>
                                 (<[(i - 1)%nat := fst (Block_hash p)]> chain)
                          else <[(i - 1)%nat := fst (Block_hash p)]> chain)).
    { destruct (linkage_ok p c) eqn:Hl; [destruct (pow_ok pow c) eqn:Hw |].
      - left. intros p0 c0 Hp0 Hc0. split; congruence.
      - right. exists (pow_message c). split.
        + exists p, c. auto 10.
        + simpl. rewrite Hp, Hc. simpl.
          unfold linkage_ok, recomputed_hash in Hl; simpl in Hl. rewrite Hl.
          unfold pow_ok, recomputed_hash in Hw; simpl in Hw. rewrite Hw.
          reflexivity.
      - right. exists (linkage_message c). split.
        + exists p, c. auto 10.
        + simpl. rewrite Hp, Hc. simpl.
          unfold linkage_ok, recomputed_hash in Hl; simpl in Hl. rewrite Hl.
          reflexivity. }
    destruct Hat as [Hpass | (line & Hfail & Hrun)].
    + set (chain2 := <[i := fst (Block_hash c)]>
                       (<[(i - 1)%nat := fst (Block_hash p)]> chain)).
      assert (Hcore : core <$> chain2 = core <$> chain).
      { unfold chain2. unfold Block_hash; simpl.
        rewrite core_insert_cache; [now apply core_insert_cache |].
        rewrite list_lookup_insert_ne by lia. exact Hc. }
      destruct (IH (S i) chain2) as (r & chain' & Hrun & Hcore' & Hrep).
      { lia. }
      { rewrite <- (length_fmap core chain2), Hcore, length_fmap. lia. }
      exists r, chain'. split; [| split].
      * simpl. rewrite Hp, Hc. simpl.
        destruct (Hpass p c Hp Hc) as [Hl Hw].
        unfold linkage_ok, recomputed_hash in Hl; simpl in Hl. rewrite Hl.
        unfold pow_ok, recomputed_hash in Hw; simpl in Hw. rewrite Hw.
        exact Hrun.
      * congruence.
      * apply (loop_reports_core pow chain chain2) in Hrep; [| now symmetry].
        destruct r as [line|]; simpl in *.
        -- destruct Hrep as (j & Hj & Hf & Hbefore).
           exists j. split; [lia |]. split; [assumption |].
           intros j' Hj'. destruct (decide (j' = i)) as [-> | Hne]; [exact Hpass |].
           apply Hbefore. lia.
        -- intros j Hj. destruct (decide (j = i)) as [-> | Hne]; [exact Hpass |].
           apply Hrep. lia.
    + eexists (Some line), _. split; [exact Hrun |]. split.
      * unfold Block_hash; simpl.
        destruct (linkage_ok p c).
        -- rewrite core_insert_cache; [now apply core_insert_cache |].
           rewrite list_lookup_insert_ne by lia. exact Hc.
        -- now apply core_insert_cache.
      * simpl. exists i. split; [lia |]. split; [assumption |].
        intros j' Hj'. lia.
Qed.

Lemma validate_chain_run (self : BlockchainNode) :
  exists r chain',
    validate_chain self
    = (Return (match r with None => true | Some _ => false end),
       set_blocks chain' self,
       [match r with None => validated_message chain' | Some line => line end])
    /\ core <$> chain' = core <$> blocks self
    /\ loop_reports (proof_of_work_func self) (blocks self) 1
         (length (blocks self) - 1) r.
Proof.
  destruct (validate_chain_loop_spec (proof_of_work_func self)
              (length (blocks self) - 1) 1 (blocks self))
    as (r & chain' & Hrun & Hcore & Hrep); [lia | lia |].
  exists r, chain'. unfold validate_chain. rewrite Hrun.
  destruct r; auto.
Qed.

Lemma messages_differ (b b' : Block) : linkage_message b <> pow_message b'.
Proof.
  unfold linkage_message, pow_message. intros E.
  apply append_inv_head in E.
  apply (f_equal (fun x => rev (list_ascii_of_string x))) in E.
  rewrite !ascii_list_app, !rev_app_distr in E. simpl in E.
  discriminate E.
Qed.

(** C3. [validate_chain] never raises.  It returns [True] exactly when every
    block after the first stores the recomputed hash of the block before it
    and has a recomputed hash that passes the predicate.  When it returns
    [False] it has stopped at the first pair that fails and printed one
    line, which tells a hash mismatch from a failed proof of work.  No check
    involves a predecessor of the first block or the first block's own
    proof of work: a chain of one block validates whatever that block is.
    The call changes nothing but the cached hashes. *)
Theorem validate_chain_spec (self : BlockchainNode) :
  (exists ok, fst (fst (validate_chain self)) = Return ok)
  /\ (fst (fst (validate_chain self)) = Return true <->
      forall i prev_block current_block,
        blocks self !! i = Some prev_block ->
        blocks self !! S i = Some current_block ->
        prev_block_hash current_block = snd (Block_hash prev_block)
        /\ proof_of_work_func self (snd (Block_hash current_block)) = true)
  /\ (fst (fst (validate_chain self)) = Return true ->
      snd (validate_chain self) = [validated_message (blocks self)])
  /\ (fst (fst (validate_chain self)) = Return false ->
      exists i prev_block current_block,
        blocks self !! i = Some prev_block
        /\ blocks self !! S i = Some current_block
        /\ (forall j, (j < i)%nat ->
                      pair_passes (proof_of_work_func self) (blocks self) (S j))
        /\ ((prev_block_hash current_block <> snd (Block_hash prev_block)
             /\ snd (validate_chain self) = [linkage_message current_block])
            \/ (prev_block_hash current_block = snd (Block_hash prev_block)
                /\ proof_of_work_func self (snd (Block_hash current_block)) = false
                /\ snd (validate_chain self) = [pow_message current_block])))
  /\ (forall b b', linkage_message b <> pow_message b')
  /\ ((length (blocks self) <= 1)%nat ->
      fst (fst (validate_chain self)) = Return true)
  /\ core <$> blocks (snd (fst (validate_chain self))) = core <$> blocks self
  /\ miner_address (snd (fst (validate_chain self))) = miner_address self
  /\ pending_transactions (snd (fst (validate_chain self)))
     = pending_transactions self.
Proof.
  destruct (validate_chain_run self) as (r & chain' & -> & Hcore & Hrep).
  simpl.
  assert (Hidx : forall j : nat, (S j - 1 = j)%nat) by (intros; lia).
  assert (Hlink : forall p c, linkage_ok p c = true
                              <-> prev_block_hash c = snd (Block_hash p)).
  { intros p c. apply String.eqb_eq. }
  split; [eauto |]. split; [| split; [| split; [| split; [| split]]]].
  - destruct r as [line|]; simpl in Hrep; split.
    + discriminate.
    + intros Hall. exfalso.
      destruct Hrep as (j & Hj & (p & c & Hp & Hc & Hf) & _).
      destruct j as [|j]; [lia |]. rewrite Hidx in Hp.
      destruct (Hall j p c Hp Hc) as [Hl Hw]. apply Hlink in Hl.
      unfold pow_ok, recomputed_hash in Hf. simpl in Hf.
      destruct Hf as [[Hf _] | (_ & Hf & _)]; congruence.
    + intros _ i p c Hp Hc.
      assert (Hi : (1 <= S i < 1 + (length (blocks self) - 1))%nat).
      { apply lookup_lt_Some in Hc. lia. }
      destruct (Hrep (S i) Hi p c) as [Hl Hw]; [now rewrite Hidx | exact Hc |].
      apply Hlink in Hl. auto.
    + reflexivity.
  - destruct r; [discriminate |]. intros _. unfold validated_message.
    now rewrite <- (length_fmap core chain'), Hcore, length_fmap.
  - destruct r as [line|]; [| discriminate]. intros _. simpl in Hrep.
    destruct Hrep as (j & Hj & (p & c & Hp & Hc & Hf) & Hbefore).
    destruct j as [|j]; [lia |]. rewrite Hidx in Hp.
    exists j, p, c. split; [assumption |]. split; [assumption |]. split.
    + intros j' Hj'. apply Hbefore; lia.
    + unfold pow_ok, recomputed_hash in Hf. simpl in Hf.
      destruct Hf as [[Hf ->] | (Hl & Hf & ->)]; [left | right].
      * split; [| reflexivity]. intros E. apply Hlink in E. congruence.
      * apply Hlink in Hl. auto.
  - apply messages_differ.
  - intros Hlen. destruct r as [line|]; [| reflexivity]. simpl in Hrep.
    destruct Hrep as (j & Hj & _). lia.
  - auto.
Qed.

End Proofs.

(** ** get_balance *)

Lemma PublicKey_eqb_eq (a b : PublicKey) : PublicKey_eqb a b = true <-> a = b.
Proof.
  unfold PublicKey_eqb. rewrite andb_true_iff, !Z.eqb_eq.
  destruct a, b; simpl. split; [intros [-> ->]; reflexivity | intros [= -> ->]; auto].
Qed.

Lemma Z_sum_from (xs : list Z) (x : Z) : fold_left Z.add xs x = x + Z_sum xs.
Proof.
  unfold Z_sum. revert x.
  induction xs as [|y xs IH]; intros x; simpl; [lia |].
  rewrite (IH (x + y)), (IH (0 + y)). lia.
Qed.

Lemma Z_sum_cons (x : Z) (xs : list Z) : Z_sum (x :: xs) = x + Z_sum xs.
Proof. unfold Z_sum at 1. simpl. apply Z_sum_from. Qed.

Lemma balance_step_exact (amount : Transaction -> Z) (address : PublicKey) (balance : Z)
  (t : Transaction) :
  balance_step Z.add Z.sub amount address balance t = balance + delta amount address t.
Proof.
  unfold balance_step, delta.
  destruct (PublicKey_eqb (sender_address t) address),
           (PublicKey_eqb (recipient_address t) address); lia.
Qed.

Lemma balance_block_exact (amount : Transaction -> Z) (address : PublicKey)
  (ts : list Transaction) (balance : Z) :
  fold_left (balance_step Z.add Z.sub amount address) ts balance
  = balance + Z_sum (map (delta amount address) ts).
Proof.
  revert balance. induction ts as [|t ts IH]; intros balance; simpl.
  - unfold Z_sum. simpl. lia.
  - rewrite IH, balance_step_exact, Z_sum_cons. lia.
Qed.

(** The exact balance is the sum of the contributions of all transactions
    of the chain. *)
Lemma balance_over_exact (amount : Transaction -> Z) (chain : list Block)
  (address : PublicKey) :
  balance_over 0 Z.add Z.sub amount chain address
  = Z_sum (map (delta amount address) (flat_map transactions chain)).
Proof.
  unfold balance_over.
  assert (H : forall balance,
             fold_left
               (fun balance block =>
                  fold_left (balance_step Z.add Z.sub amount address)
                            (transactions block) balance) chain balance
             = balance
               + Z_sum (map (delta amount address) (flat_map transactions chain))).
  { induction chain as [|b chain IH]; intros balance; simpl.
    - unfold Z_sum. simpl. lia.
    - rewrite IH, balance_block_exact, map_app.
      unfold Z_sum at 3. rewrite fold_left_app.
      rewrite Z_sum_from. fold (Z_sum (map (delta amount address) (transactions b))).
      lia. }
  rewrite H. lia.
Qed.

(** Over addresses without repetition, the indicator of one of them sums to
    the amount. *)
Lemma indicator_sum (v : Z) (x : PublicKey) (addresses : list PublicKey) :
  List.NoDup addresses -> In x addresses ->
  Z_sum (map (fun a => if PublicKey_eqb x a then v else 0) addresses) = v.
Proof.
  induction 1 as [|a addresses Hnotin Hnodup IH]; intros Hin; [destruct Hin |].
  simpl. rewrite Z_sum_cons.
  destruct (PublicKey_eqb x a) eqn:E.
  - apply PublicKey_eqb_eq in E. subst a.
    assert (Hz : Z_sum (map (fun a => if PublicKey_eqb x a then v else 0) addresses) = 0).
    { clear IH Hin Hnodup. induction addresses as [|b addresses IH]; [reflexivity |].
      simpl. rewrite Z_sum_cons.
      destruct (PublicKey_eqb x b) eqn:E.
      - apply PublicKey_eqb_eq in E. subst b. elim Hnotin. now left.
      - rewrite IH; [lia |]. intros Hin. apply Hnotin. now right. }
    lia.
  - destruct Hin as [-> | Hin].
    + assert (PublicKey_eqb x x = true) by now apply PublicKey_eqb_eq.
      congruence.
    + rewrite (IH Hin). lia.
Qed.

Lemma Z_sum_plus (A : Type) (f g : A -> Z) (xs : list A) :
  Z_sum (map (fun x => f x + g x) xs) = Z_sum (map f xs) + Z_sum (map g xs).
Proof.
  induction xs as [|x xs IH]; [reflexivity |].
  simpl. rewrite !Z_sum_cons, IH. lia.
Qed.

Lemma delta_sum (amount : Transaction -> Z) (addresses : list PublicKey)
  (t : Transaction) :
  List.NoDup addresses ->
  In (sender_address t) addresses -> In (recipient_address t) addresses ->
  Z_sum (map (fun a => delta amount a t) addresses) = 0.
Proof.
  intros Hnodup Hs Hr. unfold delta.
  rewrite (Z_sum_plus _
             (fun a => if PublicKey_eqb (recipient_address t) a then amount t else 0)
             (fun a => - (if PublicKey_eqb (sender_address t) a then amount t else 0))).
  rewrite (indicator_sum (amount t) _ addresses Hnodup Hr).
  replace (map (fun a => - (if PublicKey_eqb (sender_address t) a then amount t else 0))
               addresses)
    with (map (fun a => if PublicKey_eqb (sender_address t) a then - amount t else 0)
              addresses).
  - rewrite (indicator_sum (- amount t) _ addresses Hnodup Hs). lia.
  - apply map_ext. intros a. now destruct (PublicKey_eqb (sender_address t) a).
Qed.

(** [get_balance] reads the chain as one list of transactions. *)
Lemma balance_over_flat (R : Type) (zero : R) (add sub : R -> R -> R)
  (amount : Transaction -> R) (chain : list Block) (address : PublicKey) :
  balance_over zero add sub amount chain address
  = fold_left (balance_step add sub amount address) (flat_map transactions chain) zero.
Proof.
  unfold balance_over. revert zero.
  induction chain as [|b chain IH]; intros zero; simpl; [reflexivity |].
  now rewrite fold_left_app, IH.
Qed.

Lemma flat_transactions_core (c1 c2 : list Block) :
  core <$> c1 = core <$> c2 ->
  flat_map transactions c1 = flat_map transactions c2.
Proof.
  intros E.
  assert (H : forall c, flat_map transactions c = flat_map transactions (core <$> c)).
  { induction c as [|b c IH]; simpl; [reflexivity | now rewrite IH]. }
  now rewrite (H c1), (H c2), E.
Qed.

Section Ledger.
Context {P : Primitives}.

(** What a [mine_block] that returns does to the ledger: the pool becomes
    the last block's transactions, and the reward is pooled. *)
Lemma mine_block_ledger (fuel : nat) (now : float) (self self' : BlockchainNode)
  (out : list string) :
  mine_block fuel now self = Some (self', out) ->
  flat_map transactions (blocks self')
  = flat_map transactions (blocks self) ++ pending_transactions self
  /\ pending_transactions self' = [reward_transaction self]
  /\ miner_address self' = miner_address self.
Proof.
  rewrite mine_block_unfold.
  destruct (pow_search fuel _ _ 0) as [found|] eqn:Hs; [| discriminate].
  intros [= <- _]. simpl. repeat split.
  apply pow_search_Some in Hs. destruct Hs as (_ & _ & _ & Ht & _).
  rewrite flat_map_app. simpl. rewrite Ht, app_nil_r. simpl.
  f_equal. apply flat_transactions_core, core_refresh_last.
Qed.

Lemma PublicKey_eqb_refl (a : PublicKey) : PublicKey_eqb a a = true.
Proof. now apply PublicKey_eqb_eq. Qed.

Lemma PublicKey_eqb_neq (a b : PublicKey) : a <> b -> PublicKey_eqb a b = false.
Proof.
  intros H. destruct (PublicKey_eqb a b) eqn:E; [| reflexivity].
  now apply PublicKey_eqb_eq in E.
Qed.

(** Rounding, whatever the library primitives are.  A miner who is not the
    system address mines twice and then pays [2^-52] three times to a third
    address, with a transaction whose signature verifies; the payments are
    accepted and mined.  In the chain that results the system address has
    [-4.0], the miner still has [4.0], and the payee has [3 * 2^-52]. *)
Lemma absorbed_payments (miner payee : PublicKey) (t : Transaction)
  (fuel0 fuel1 fuel2 : nat) (now0 now1 now2 : float)
  (n0 n1 n2 : BlockchainNode) (out0 out1 out2 : list string) :
  miner <> reward_sender -> payee <> reward_sender -> payee <> miner ->
  sender_address t = miner -> recipient_address t = payee ->
  value t = 0x1p-52%float ->
  fst (Transaction_validate t) = Return tt ->
  new_BlockchainNode fuel0 now0 miner = Some (n0, out0) ->
  mine_block fuel1 now1 n0 = Some (n1, out1) ->
  mine_block fuel2 now2
    (self_ (snd (submit_transaction
       (self_ (snd (submit_transaction
          (self_ (snd (submit_transaction n1 t))) t))) t)))
  = Some (n2, out2) ->
  reachable n2
  /\ get_balance n2 reward_sender = (-4)%float
  /\ get_balance n2 miner = 4%float
  /\ get_balance n2 payee = 0x1.8p-51%float.
Proof.
  intros Hm Hp Hpm Hs Hr Hv Hok H0 H1 H2.
  assert (R1 : reachable n1).
  { eapply reachable_mine; [| exact H1]. eapply reachable_new. exact H0. }
  split.
  { eapply reachable_mine; [| exact H2]. now do 3 apply reachable_submit. }
  destruct (mine_block_ledger _ _ _ _ _ H0) as (L0 & P0 & M0).
  destruct (mine_block_ledger _ _ _ _ _ H1) as (L1 & P1 & M1).
  destruct (mine_block_ledger _ _ _ _ _ H2) as (L2 & _ & _).
  simpl in L0, P0, M0. rewrite L0, P0 in L1. simpl in L1.
  assert (B1 : forall self, blocks self = blocks n1 ->
                            get_balance self (sender_address t) = 2%float).
  { intros self E. unfold get_balance. rewrite E, balance_over_flat, L1. simpl.
    unfold balance_step, reward_transaction. simpl.
    rewrite Hs. simpl.
    rewrite (PublicKey_eqb_neq reward_sender miner) by congruence.
    rewrite PublicKey_eqb_refl. reflexivity. }
  assert (A : forall self,
             blocks self = blocks n1 ->
             blocks (self_ (snd (submit_transaction self t))) = blocks n1
             /\ pending_transactions (self_ (snd (submit_transaction self t)))
                = pending_transactions self ++ [t]).
  { intros self E.
    rewrite (submit_transaction_accepted self t Hok).
    - simpl. auto.
    - rewrite (B1 self E), Hv. reflexivity. }
  destruct (A n1 eq_refl) as [E1 Q1].
  destruct (A _ E1) as [E2 Q2].
  destruct (A _ E2) as [E3 Q3].
  rewrite E3, Q3, Q2, Q1, P1, L1 in L2. simpl in L2.
  unfold get_balance. rewrite !balance_over_flat, L2. simpl.
  unfold balance_step, reward_transaction. simpl.
  rewrite Hs, Hr, Hv, M0. simpl.
  rewrite !PublicKey_eqb_refl.
  rewrite (PublicKey_eqb_neq miner reward_sender) by congruence.
  rewrite (PublicKey_eqb_neq payee reward_sender) by congruence.
  rewrite (PublicKey_eqb_neq reward_sender miner) by congruence.
  rewrite (PublicKey_eqb_neq payee miner) by congruence.
  rewrite (PublicKey_eqb_neq reward_sender payee) by congruence.
  rewrite (PublicKey_eqb_neq miner payee) by congruence.
  repeat split; vm_compute; reflexivity.
Qed.

End Ledger.

(** The two loops of [get_balance] over the integers: for every chain, the
    balances of a list of distinct addresses that contains every sender and
    recipient of the chain sum to zero. *)
Lemma balance_over_sums_to_zero (amount : Transaction -> Z) (chain : list Block)
  (addresses : list PublicKey) :
  List.NoDup addresses ->
  (forall a, In a (chain_addresses chain) -> In a addresses) ->
  Z_sum (map (balance_over 0 Z.add Z.sub amount chain) addresses) = 0.
Proof.
  intros Hnodup Hall.
  rewrite (map_ext _ _ (balance_over_exact amount chain)).
  assert (Hin : forall t, In t (flat_map transactions chain) ->
                          In (sender_address t) addresses
                          /\ In (recipient_address t) addresses).
  { intros t Ht. apply in_flat_map in Ht. destruct Ht as (b & Hb & Ht).
    split; apply Hall; unfold chain_addresses; apply in_flat_map;
      exists b; (split; [exact Hb |]); apply in_flat_map; exists t;
      (split; [exact Ht |]); simpl; auto. }
  induction (flat_map transactions chain) as [|t ts IH].
  - clear. induction addresses as [|a addresses IHa]; [reflexivity |].
    rewrite map_cons, Z_sum_cons, IHa. reflexivity.
  - replace (map (fun a => Z_sum (map (delta amount a) (t :: ts))) addresses)
      with (map (fun a => delta amount a t + Z_sum (map (delta amount a) ts)) addresses)
      by (apply map_ext; intros a; simpl; now rewrite Z_sum_cons).
    rewrite Z_sum_plus, IH by (intros; apply Hin; now right).
    destruct (Hin t (or_introl eq_refl)) as [Hs Hr].
    rewrite (delta_sum amount addresses t Hnodup Hs Hr). lia.
Qed.

(** *** get_balance when no operation rounds *)

Lemma exact_value_zero : exact_value 0%float = Some 0.
Proof. reflexivity. Qed.

Lemma exact_sub_spec (x y : float) :
  exact_sub x y = true ->
  exists a b, exact_value x = Some a /\ exact_value y = Some b
              /\ exact_value (x - y)%float = Some (a - b).
Proof.
  unfold exact_sub.
  destruct (exact_value x) as [a |]; [| discriminate].
  destruct (exact_value y) as [b |]; [| discriminate].
  destruct (exact_value (x - y)%float) as [c |]; [| discriminate].
  intros E. apply Z.eqb_eq in E. subst c. exists a, b. auto.
Qed.

Lemma exact_add_spec (x y : float) :
  exact_add x y = true ->
  exists a b, exact_value x = Some a /\ exact_value y = Some b
              /\ exact_value (x + y)%float = Some (a + b).
Proof.
  unfold exact_add.
  destruct (exact_value x) as [a |]; [| discriminate].
  destruct (exact_value y) as [b |]; [| discriminate].
  destruct (exact_value (x + y)%float) as [c |]; [| discriminate].
  intros E. apply Z.eqb_eq in E. subst c. exists a, b. auto.
Qed.

(** One exact pass of the inner loop is the same pass over the integers. *)
Lemma step_exact_spec (address : PublicKey) (balance : float) (z : Z)
  (t : Transaction) :
  step_exact address balance t = true ->
  exact_value balance = Some z ->
  exact_value (balance_step PrimFloat.add PrimFloat.sub value address balance t)
  = Some (balance_step Z.add Z.sub exact_amount address z t).
Proof.
  unfold step_exact, balance_step, exact_amount.
  intros H Hz. apply andb_prop in H. destruct H as [Hs Hr].
  destruct (PublicKey_eqb (sender_address t) address);
    destruct (PublicKey_eqb (recipient_address t) address).
  - apply exact_sub_spec in Hs. destruct Hs as (a & b & Ea & Eb & Ec).
    apply exact_add_spec in Hr. destruct Hr as (a' & b' & Ea' & Eb' & Ec').
    rewrite Ec', Eb. f_equal. congruence.
  - apply exact_sub_spec in Hs. destruct Hs as (a & b & Ea & Eb & Ec).
    rewrite Ec, Eb. f_equal. congruence.
  - apply exact_add_spec in Hr. destruct Hr as (a' & b' & Ea' & Eb' & Ec').
    rewrite Ec', Eb'. f_equal. congruence.
  - exact Hz.
Qed.

Lemma balance_exact_spec (address : PublicKey) (ts : list Transaction) :
  forall (balance : float) (z : Z),
    balance_exact address ts balance = true ->
    exact_value balance = Some z ->
    exact_value (fold_left (balance_step PrimFloat.add PrimFloat.sub value address)
                           ts balance)
    = Some (fold_left (balance_step Z.add Z.sub exact_amount address) ts z).
Proof.
  induction ts as [| t ts IH]; intros balance z H Hz.
  - exact Hz.
  - simpl in H. apply andb_prop in H. destruct H as [H1 H2].
    simpl. apply IH; [exact H2 |].
    apply step_exact_spec; assumption.
Qed.

Lemma sum_exact_spec (xs : list float) :
  forall (acc : float) (z : Z),
    sum_exact xs acc = true ->
    exact_value acc = Some z ->
    exists zs, Forall2 (fun x v => exact_value x = Some v) xs zs
               /\ exact_value (fold_left PrimFloat.add xs acc)
                  = Some (fold_left Z.add zs z).
Proof.
  induction xs as [| x xs IH]; intros acc z H Hz.
  - exists []. split; [constructor | exact Hz].
  - simpl in H. apply andb_prop in H. destruct H as [H1 H2].
    apply exact_add_spec in H1. destruct H1 as (a & b & Ea & Eb & Ec).
    assert (a = z) by congruence. subst a.
    destruct (IH _ _ H2 Ec) as (zs & F & E).
    exists (b :: zs). split; [constructor; assumption | exact E].
Qed.

(** A finite float whose exact value is zero compares equal to [0.0]. *)
Lemma exact_value_is_zero (x : float) :
  exact_value x = Some 0 -> PrimFloat.eqb x 0 = true.
Proof.
  unfold exact_value. intros H.
  rewrite FloatAxioms.eqb_spec.
  destruct (Prim2SF x) as [s | s | | s m e]; try discriminate.
  - destruct s; reflexivity.
  - destruct (Z.leb 0 (e + 1074)) eqn:L; [| discriminate].
    apply Z.leb_le in L. injection H as H.
    assert (0 < 2 ^ (e + 1074)) by (apply Z.pow_pos_nonneg; lia).
    destruct s; nia.
Qed.

Lemma Forall2_same_values (xs : list float) (zs zs' : list Z) :
  Forall2 (fun x v => exact_value x = Some v) xs zs ->
  Forall2 (fun x v => exact_value x = Some v) xs zs' ->
  zs = zs'.
Proof.
  intros F. revert zs'.
  induction F as [| x z xs zs E F IH]; intros zs' F'; inversion F'; subst.
  - reflexivity.
  - f_equal; [congruence | apply IH; assumption].
Qed.

(** C8, as amended.  Take any chain, and a list of distinct addresses that
    contains every sender and recipient of the chain.  If none of the
    subtractions and additions that [get_balance] performs for these
    addresses rounds or overflows (operands and results are finite and each
    result is the exact one), then every balance is a finite float, the
    exact values of the balances sum to zero, and a float summation of the
    balances in the order of the list that does not round either returns a
    float equal to [0.0]. *)
Theorem get_balance_sums_to_zero_without_rounding (self : BlockchainNode)
  (addresses : list PublicKey) :
  List.NoDup addresses ->
  (forall a, In a (chain_addresses (blocks self)) -> In a addresses) ->
  (forall a, In a addresses ->
             balance_exact a (flat_map transactions (blocks self)) 0%float = true) ->
  exists exact_balances : list Z,
    Forall2 (fun a z => exact_value (get_balance self a) = Some z)
            addresses exact_balances
    /\ Z_sum exact_balances = 0
    /\ (sum_exact (map (get_balance self) addresses) 0%float = true ->
        PrimFloat.eqb (float_sum (map (get_balance self) addresses)) 0 = true).
Proof.
  intros Hnodup Hcover Hexact.
  assert (B : forall a, In a addresses ->
                exact_value (get_balance self a)
                = Some (balance_over 0 Z.add Z.sub exact_amount (blocks self) a)).
  { intros a Ha. unfold get_balance. rewrite !balance_over_flat.
    apply balance_exact_spec; [apply Hexact; exact Ha | exact exact_value_zero]. }
  assert (F : Forall2 (fun a z => exact_value (get_balance self a) = Some z)
                addresses
                (map (balance_over 0 Z.add Z.sub exact_amount (blocks self)) addresses)).
  { clear Hnodup Hcover Hexact.
    induction addresses as [| a l IH]; [constructor |].
    simpl. constructor.
    - apply B. left. reflexivity.
    - apply IH. intros a' Ha'. apply B. right. exact Ha'. }
  exists (map (balance_over 0 Z.add Z.sub exact_amount (blocks self)) addresses).
  split; [exact F |].
  split; [apply balance_over_sums_to_zero; assumption |].
  intros Hsum.
  destruct (sum_exact_spec _ _ 0 Hsum exact_value_zero) as (zs & Fz & E).
  assert (zs = map (balance_over 0 Z.add Z.sub exact_amount (blocks self)) addresses).
  { apply (Forall2_same_values (map (get_balance self) addresses)); [exact Fz |].
    clear -F. induction F; simpl; constructor; assumption. }
  subst zs.
  apply exact_value_is_zero. unfold float_sum. rewrite E.
  f_equal. apply (balance_over_sums_to_zero exact_amount (blocks self) addresses);
    assumption.
Qed.


(** * The model on concrete inputs *)

Module Scenario.
Import Demo.

Lemma reachable_after_submit (self self' : BlockchainNode) (t : Transaction) :
  reachable self -> self_ (snd (submit_transaction self t)) = self' ->
  reachable self'.
Proof. intros H <-. now apply reachable_submit. Qed.

Lemma started_ok :
  new_BlockchainNode 4 1703089267.25 miner
  = Some (node [genesis] [reward], ["Successfully mined new block 0!"]).
Proof. vm_compute. reflexivity. Qed.

Lemma second_ok :
  mine_block 5 1703089268.5 (node [genesis] [reward])
  = Some (node [genesis; block1] [reward], ["Successfully mined new block 1!"]).
Proof. vm_compute. reflexivity. Qed.

Lemma third_ok :
  mine_block 7 1703089269.75 (node [genesis; block1] [reward; tiny; tiny; tiny])
  = Some (node [genesis; block1; block2] [reward],
          ["Successfully mined new block 2!"]).
Proof. vm_compute. reflexivity. Qed.

Lemma third_half_ok :
  mine_block 50 1703089269.75 (node [genesis; block1] [reward; half])
  = Some (node [genesis; block1; block2_half] [reward],
          ["Successfully mined new block 2!"]).
Proof. vm_compute. reflexivity. Qed.

Lemma second_reachable : reachable (node [genesis; block1] [reward]).
Proof.
  eapply reachable_mine; [| exact second_ok].
  eapply reachable_new. exact started_ok.
Qed.

(** Three accepted payments of [2^-52], then a block. *)
Lemma drifted_reachable : reachable (node [genesis; block1; block2] [reward]).
Proof.
  eapply reachable_mine; [| exact third_ok].
  apply (reachable_after_submit
           (node [genesis; block1] [reward; tiny; tiny]) _ tiny);
    [| vm_compute; reflexivity].
  apply (reachable_after_submit (node [genesis; block1] [reward; tiny]) _ tiny);
    [| vm_compute; reflexivity].
  apply (reachable_after_submit (node [genesis; block1] [reward]) _ tiny);
    [| vm_compute; reflexivity].
  exact second_reachable.
Qed.

(** One accepted payment of 0.5, then a block. *)
Lemma paid_reachable : reachable (node [genesis; block1; block2_half] [reward]).
Proof.
  eapply reachable_mine; [| exact third_half_ok].
  apply (reachable_after_submit (node [genesis; block1] [reward]) _ half);
    [| vm_compute; reflexivity].
  exact second_reachable.
Qed.

(** C1 on the chain of three blocks. *)
Lemma reachable_chain_linked_witness :
  blocks (node [genesis; block1; block2] [reward]) <> []
  /\ forall i prev_block current_block,
       blocks (node [genesis; block1; block2] [reward]) !! i = Some prev_block ->
       blocks (node [genesis; block1; block2] [reward]) !! S i = Some current_block ->
       prev_block_hash current_block = snd (Block_hash prev_block).
Proof.
  exact (reachable_chain_linked (node [genesis; block1; block2] [reward])
           drifted_reachable).
Defined.

(** C2 on the second [mine_block] and on the chain of three blocks. *)
Lemma mined_block_passes_pow_witness :
  (exists chain new_block,
      blocks (node [genesis; block1] [reward]) = chain ++ [new_block]
      /\ core <$> chain = core <$> blocks (node [genesis] [reward])
      /\ proof_of_work_func (node [genesis; block1] [reward])
         = proof_of_work_func (node [genesis] [reward])
      /\ proof_of_work_func (node [genesis] [reward])
           (snd (Block_hash new_block)) = true
      /\ fst (Block_validate new_block (proof_of_work_func (node [genesis] [reward])))
         = new_block
      /\ snd (Block_validate new_block (proof_of_work_func (node [genesis] [reward])))
         = true)
  /\ Forall (fun b => endswith (snd (Block_hash b)) "000" = true)
            [genesis; block1; block2].
Proof.
  split.
  - exact (proj1 (mined_block_passes_pow (node [genesis] [reward]))
             5%nat 1703089268.5%float _ _ second_ok).
  - exact (proj2 (mined_block_passes_pow (node [genesis; block1; block2] [reward]))
             drifted_reachable).
Defined.

(** C3 on a chain whose middle block was redated after mining: the first
    pair fails, on the proof of work. *)
Lemma validate_chain_spec_witness :
  fst (fst (validate_chain (node [genesis; block1_redated; block2] [reward])))
  = Return false
  /\ snd (validate_chain (node [genesis; block1_redated; block2] [reward]))
     = ["Blockchain validation failed at block 1: Invalid proof-of-work."]
  /\ exists i prev_block current_block,
       [genesis; block1_redated; block2] !! i = Some prev_block
       /\ [genesis; block1_redated; block2] !! S i = Some current_block
       /\ (forall j, (j < i)%nat ->
                     pair_passes (fun x => endswith x "000")
                       [genesis; block1_redated; block2] (S j))
       /\ ((prev_block_hash current_block <> snd (Block_hash prev_block)
            /\ snd (validate_chain (node [genesis; block1_redated; block2] [reward]))
               = [linkage_message current_block])
           \/ (prev_block_hash current_block = snd (Block_hash prev_block)
               /\ endswith (snd (Block_hash current_block)) "000" = false
               /\ snd (validate_chain (node [genesis; block1_redated; block2] [reward]))
                  = [pow_message current_block])).
Proof.
  split; [vm_compute; reflexivity |]. split; [vm_compute; reflexivity |].
  apply (proj1 (proj2 (proj2 (proj2
           (validate_chain_spec (node [genesis; block1_redated; block2] [reward])))))).
  vm_compute. reflexivity.
Defined.

(** C4 as stated fails: an exception leaves the call.  With a forged
    signature it is the verification error, raised again by the handler;
    with a valid signature and too small a balance it is the
    [AttributeError] of the handler's lookup. *)
Lemma submit_transaction_raises :
  fst (Transaction_validate forged)
  = Raise (Exn "VerificationError" "Verification failed")
  /\ fst (submit_transaction (node [genesis; block1; block2_half] [reward]) forged)
     = Raise (Exn "VerificationError" "Verification failed")
  /\ fst (submit_transaction (node [genesis; block1; block2_half] [reward]) forged)
     <> Return tt
  /\ fst (Transaction_validate overdraft) = Return tt
  /\ get_balance (node [genesis; block1; block2_half] [reward]) alice = 0.5%float
  /\ value overdraft = 1%float
  /\ fst (submit_transaction (node [genesis; block1; block2_half] [reward]) overdraft)
     = Raise AttributeError_reason.
Proof. repeat split; try (vm_compute; reflexivity). vm_compute. discriminate. Qed.

(** C4 as amended, on the forged and on the unfunded transaction. *)
Lemma submit_transaction_failure_propagates_witness :
  (fst (submit_transaction (node [genesis; block1; block2_half] [reward]) forged)
   = Raise (Exn "VerificationError" "Verification failed")
   /\ self_ (snd (submit_transaction (node [genesis; block1; block2_half] [reward])
                   forged))
      = node [genesis; block1; block2_half] [reward]
   /\ stdout (snd (submit_transaction (node [genesis; block1; block2_half] [reward])
                    forged))
      = failure_report (Exn "VerificationError" "Verification failed") forged
        ++ reason_report "Verification failed")
  /\ ((exists e,
         fst (submit_transaction (node [genesis; block1; block2_half] [reward])
                overdraft) = Raise e)
      /\ self_ (snd (submit_transaction (node [genesis; block1; block2_half] [reward])
                      overdraft))
         = node [genesis; block1; block2_half] [reward]
      /\ exists rest,
           stdout (snd (submit_transaction
                          (node [genesis; block1; block2_half] [reward]) overdraft))
           = failure_report
               (insufficient_tokens (value overdraft)
                  (get_balance (node [genesis; block1; block2_half] [reward])
                     (sender_address overdraft))) overdraft ++ rest).
Proof.
  split.
  - apply (proj1 (submit_transaction_failure_propagates
                    (node [genesis; block1; block2_half] [reward]) forged)).
    vm_compute. reflexivity.
  - apply (proj2 (submit_transaction_failure_propagates
                    (node [genesis; block1; block2_half] [reward]) overdraft));
      vm_compute; reflexivity.
Defined.

(** C5 on the literal scenario (balance 0.5, value 1.0) and on an accepted
    payment. *)
Lemma insufficient_funds_rejected_witness :
  (fst (submit_transaction (node [genesis; block1; block2_half] [reward]) overdraft)
   = Raise AttributeError_reason
   /\ head (stdout (snd (submit_transaction
                           (node [genesis; block1; block2_half] [reward]) overdraft)))
      = Some ("Transaction submission failed: "
              +:+ "Insufficient tokens available (" +:+ repr_float (value overdraft)
              +:+ " required, "
              +:+ repr_float
                    (get_balance (node [genesis; block1; block2_half] [reward])
                       (sender_address overdraft))
              +:+ " available)")
   /\ pending_transactions
        (self_ (snd (submit_transaction
                       (node [genesis; block1; block2_half] [reward]) overdraft)))
      = pending_transactions (node [genesis; block1; block2_half] [reward]))
  /\ (fst (submit_transaction (node [genesis; block1] [reward]) half) = Return tt
      /\ pending_transactions
           (self_ (snd (submit_transaction (node [genesis; block1] [reward]) half)))
         = pending_transactions (node [genesis; block1] [reward]) ++ [half]).
Proof.
  split.
  - apply (proj1 (insufficient_funds_rejected
                    (node [genesis; block1; block2_half] [reward]) overdraft));
      vm_compute; reflexivity.
  - apply (proj2 (proj2 (insufficient_funds_rejected
                           (node [genesis; block1] [reward]) half)));
      vm_compute; reflexivity.
Defined.

(** C6 on the second [mine_block]. *)
Lemma pool_after_mine_block_witness :
  exists r,
    pending_transactions (node [genesis; block1] [reward]) = [r]
    /\ signature r = []
    /\ sender_address r = {| key_n := 0; key_e := 0 |}
    /\ recipient_address r = miner_address (node [genesis; block1] [reward])
    /\ miner_address (node [genesis; block1] [reward])
       = miner_address (node [genesis] [reward])
    /\ value r = REWARD_AMOUNT
    /\ REWARD_AMOUNT = 2%float.
Proof.
  exact (pool_after_mine_block 5 1703089268.5 (node [genesis] [reward])
           (node [genesis; block1] [reward]) _ second_ok).
Defined.

(** C7 at time 1703089267.25: the fourth increment finds the nonce. *)
Lemma fresh_node_has_genesis_witness :
  (exists self out,
      new_BlockchainNode 4 1703089267.25 miner = Some (self, out))
  /\ (length (blocks (node [genesis] [reward])) = 1%nat
      /\ exists first,
           blocks (node [genesis] [reward]) = [first] /\ num first = 0
           /\ prev_block_hash first = "-" /\ transactions first = []).
Proof.
  split.
  - apply (proj1 (fresh_node_has_genesis 1703089267.25 miner) 4%nat).
    vm_compute. reflexivity.
  - exact (proj2 (fresh_node_has_genesis 1703089267.25 miner) 4%nat _ _ started_ok).
Defined.

Lemma three_distinct : List.NoDup [reward_sender; miner; alice].
Proof.
  repeat (constructor; [simpl; intuition discriminate |]). constructor.
Qed.

Lemma three_cover :
  forall a, In a (chain_addresses [genesis; block1; block2]) ->
            In a [reward_sender; miner; alice].
Proof.
  intros a Ha. vm_compute in Ha. simpl.
  repeat (destruct Ha as [<- | Ha]; [auto |]). destruct Ha.
Qed.

(** C8 as stated fails on a reachable chain.  After three payments of
    [2^-52] the miner's balance is still [4.0] (each subtraction rounds
    back to [4.0]) while [alice] holds [3 * 2^-52]: the balances of the
    three addresses of the chain add up to a non-zero float in each of the
    six orders, and their exact sum is not zero either.  The balances are
    those of [absorbed_payments], which do not depend on the library
    primitives. *)
Lemma float_balances_do_not_sum_to_zero :
  reachable (node [genesis; block1; block2] [reward])
  /\ List.NoDup [reward_sender; miner; alice]
  /\ (forall a, In a (chain_addresses [genesis; block1; block2]) <->
                In a [reward_sender; miner; alice])
  /\ map (get_balance (node [genesis; block1; block2] [reward]))
         [reward_sender; miner; alice]
     = [(-4)%float; 4%float; 0x1.8p-51%float]
  /\ Forall (fun order =>
               PrimFloat.eqb
                 (float_sum (map (get_balance (node [genesis; block1; block2] [reward]))
                                 order)) 0 = false)
            (permutations [reward_sender; miner; alice])
  /\ Z_sum (map (fun a => exact_units
                            (get_balance (node [genesis; block1; block2] [reward]) a))
                [reward_sender; miner; alice]) <> 0.
Proof.
  split; [exact drifted_reachable |]. split; [exact three_distinct |].
  split; [| split; [| split]].
  - intros a. split; [apply three_cover |].
    intros Ha. vm_compute. simpl in Ha. intuition.
  - vm_compute. reflexivity.
  - vm_compute. repeat constructor.
  - vm_compute. discriminate.
Qed.

Lemma paid_cover :
  forall a, In a (chain_addresses [genesis; block1; block2_half]) ->
            In a [reward_sender; miner; alice].
Proof. intros a Ha. vm_compute in Ha. simpl. intuition. Qed.

(** C8 as amended, after a payment of [0.5]: no operation rounds, the
    balances are [-4.0], [3.5] and [0.5], their exact values sum to zero and
    so does their float sum. *)
Lemma get_balance_sums_to_zero_without_rounding_witness :
  map (get_balance (node [genesis; block1; block2_half] [reward]))
      [reward_sender; miner; alice]
  = [(-4)%float; 3.5%float; 0.5%float]
  /\ (exists exact_balances : list Z,
        Forall2 (fun a z =>
                   exact_value (get_balance (node [genesis; block1; block2_half] [reward]) a)
                   = Some z)
                [reward_sender; miner; alice] exact_balances
        /\ Z_sum exact_balances = 0)
  /\ PrimFloat.eqb
       (float_sum (map (get_balance (node [genesis; block1; block2_half] [reward]))
                       [reward_sender; miner; alice])) 0 = true.
Proof.
  split; [vm_compute; reflexivity |].
  destruct (get_balance_sums_to_zero_without_rounding
              (node [genesis; block1; block2_half] [reward])
              [reward_sender; miner; alice] three_distinct paid_cover)
    as (zs & F & Z & S).
  - intros a Ha. simpl in Ha.
    destruct Ha as [<- | [<- | [<- | []]]]; vm_compute; reflexivity.
  - split.
    + exists zs. split; assumption.
    + apply S. vm_compute. reflexivity.
Defined.

(** On the chain with the three payments of [2^-52], the subtractions from
    the miner's balance round: the premise of the amended claim fails. *)
Lemma tiny_payments_round :
  balance_exact miner (flat_map transactions [genesis; block1; block2]) 0%float
  = false.
Proof. vm_compute. reflexivity. Qed.

Lemma tiny_never_failed : never_failed tiny.
Proof.
  apply (never_failed_sign (new_Transaction miner alice 0x1p-52) any_key).
  - exact (never_failed_new miner alice 0x1p-52 []).
  - vm_compute. reflexivity.
Qed.

(** C10 on a signed transaction that always verified, and on the forged
    one after its [validate] has raised. *)
Lemma get_validation_failure_reason_spec_witness :
  get_validation_failure_reason tiny = Raise AttributeError_reason
  /\ get_validation_failure_reason (snd (Transaction_validate forged))
     = Return "Verification failed".
Proof.
  split.
  - exact (proj1 (get_validation_failure_reason_spec tiny) tiny_never_failed).
  - apply (proj2 (get_validation_failure_reason_spec forged)
             (Exn "VerificationError" "Verification failed")).
    vm_compute. reflexivity.
Defined.

End Scenario.

(** * Further properties of the methods *)

Section Mining.
Context {P : Primitives}.

(** ** The nonce that mine_block finds *)

Lemma pow_search_least (fuel : nat) (pow : string -> bool) :
  forall (b : Block) (proof : Z) (found : Block),
    pow_search fuel pow b proof = Some found ->
    exists k : nat,
      (k <= fuel)%nat
      /\ found
         = set_block_hash
             (recomputed_hash
                (if Nat.eqb k 0 then b else set_nonce (proof + Z.of_nat k) b))
             (if Nat.eqb k 0 then b else set_nonce (proof + Z.of_nat k) b)
      /\ pow (recomputed_hash found) = true
      /\ pow (recomputed_hash b) = Nat.eqb k 0
      /\ forall j : nat,
           (0 < j < k)%nat ->
           pow (recomputed_hash (set_nonce (proof + Z.of_nat j) b)) = false.
Proof.
  induction fuel as [|fuel IH]; intros b proof found; simpl;
    destruct (pow (sha256_hexdigest (get_header b))) eqn:Hpow; try discriminate.
  1, 2: intros [= <-]; exists 0%nat; simpl; unfold recomputed_hash; simpl;
        repeat split; auto with arith; intros j Hj; lia.
  intros H. apply IH in H. destruct H as (k & Hk & Hf & Hp & H0 & Hless).
  exists (S k). split; [lia |]. simpl.
  replace (proof + Z.of_nat (S k)) with (proof + 1 + Z.of_nat k) by lia.
  split; [| split; [exact Hp | split; [exact Hpow |]]].
  - rewrite Hf. destruct k; simpl; [| reflexivity].
    now replace (proof + 1 + Z.of_nat 0) with (proof + 1) by lia.
  - intros j Hj. destruct (decide (j = 1%nat)) as [-> | Hne].
    + unfold recomputed_hash in H0 |- *. simpl in H0 |- *.
      destruct k; [lia |]. exact H0.
    + destruct j as [|j]; [lia |].
      replace (proof + Z.of_nat (S j)) with (proof + 1 + Z.of_nat j) by lia.
      apply (Hless j). lia.
Qed.

(** X1. The block that [mine_block] appends is the candidate block (next
    number, the given time, the hash of the last block, the whole pool) with
    the least nonce, counted from 0, whose header hash passes the predicate;
    its cache holds that hash.  The search used that many increments. *)
Theorem mine_block_least_nonce (fuel : nat) (now : float)
  (self self' : BlockchainNode) (out : list string) :
  mine_block fuel now self = Some (self', out) ->
  exists k : nat,
    (k <= fuel)%nat
    /\ last (blocks self')
       = Some (set_block_hash
                 (recomputed_hash (set_nonce (Z.of_nat k) (candidate_block now self)))
                 (set_nonce (Z.of_nat k) (candidate_block now self)))
    /\ proof_of_work_func self
         (recomputed_hash (set_nonce (Z.of_nat k) (candidate_block now self))) = true
    /\ (forall j : nat,
          (j < k)%nat ->
          proof_of_work_func self
            (recomputed_hash (set_nonce (Z.of_nat j) (candidate_block now self)))
          = false)
    /\ out = ["Successfully mined new block "
              +:+ str_int (num (candidate_block now self)) +:+ "!"].
Proof.
  rewrite mine_block_unfold.
  destruct (pow_search fuel _ _ 0) as [found|] eqn:Hs; [| discriminate].
  intros [= <- <-]. simpl.
  pose proof (pow_search_Some _ _ _ _ _ Hs) as (Hnum & _).
  apply pow_search_least in Hs. destruct Hs as (k & Hk & Hf & Hp & H0 & Hless).
  exists k. split; [exact Hk |]. rewrite last_snoc.
  assert (E : (if Nat.eqb k 0 then candidate_block now self
               else set_nonce (0 + Z.of_nat k) (candidate_block now self))
              = set_nonce (Z.of_nat k) (candidate_block now self)).
  { destruct k; reflexivity. }
  rewrite E in Hf. split; [now rewrite Hf |].
  split; [now rewrite Hf in Hp |]. split.
  - intros j Hj. destruct j as [|j].
    + destruct k; [lia |]. exact H0.
    + apply (Hless (S j)). lia.
  - unfold mined_message. now rewrite Hnum.
Qed.

(** X2. [mine_block] returns exactly when some nonce, counted from 0, makes
    the candidate block pass the predicate; when none does, the search goes
    on for ever.  What it returns does not depend on how long the search was
    allowed to run. *)
Theorem mine_block_returns_iff (now : float) (self : BlockchainNode) :
  ((exists fuel r, mine_block fuel now self = Some r)
   <-> exists k : nat,
         proof_of_work_func self
           (recomputed_hash (set_nonce (Z.of_nat k) (candidate_block now self)))
         = true)
  /\ ((forall k : nat,
         proof_of_work_func self
           (recomputed_hash (set_nonce (Z.of_nat k) (candidate_block now self)))
         = false) ->
      forall fuel, mine_block fuel now self = None)
  /\ (forall fuel fuel' r r',
        mine_block fuel now self = Some r -> mine_block fuel' now self = Some r' ->
        r = r').
Proof.
  assert (Hfound : forall fuel r, mine_block fuel now self = Some r ->
            exists k : nat,
              proof_of_work_func self
                (recomputed_hash (set_nonce (Z.of_nat k) (candidate_block now self)))
              = true).
  { intros fuel r. rewrite mine_block_unfold.
    destruct (pow_search fuel _ _ 0) as [found|] eqn:Hs; [| discriminate].
    intros _. apply pow_search_least in Hs.
    destruct Hs as (k & _ & Hf & Hp & _). exists k.
    rewrite Hf in Hp. now destruct k. }
  split; [split |]; [| | split].
  - intros (fuel & r & H). eauto.
  - intros (k & Hk). destruct (mine_block_returns k now self Hk) as (s' & o & H).
    eauto.
  - intros Hnone fuel. destruct (mine_block fuel now self) as [r|] eqn:H; [| reflexivity].
    destruct (Hfound fuel r H) as (k & Hk). rewrite Hnone in Hk. discriminate.
  - intros fuel fuel' r r'. rewrite !mine_block_unfold.
    destruct (pow_search fuel _ _ 0) as [f1|] eqn:H1; [| discriminate].
    destruct (pow_search fuel' _ _ 0) as [f2|] eqn:H2; [| discriminate].
    intros [= <-] [= <-].
    apply (pow_search_more_fuel fuel fuel') in H1.
    apply (pow_search_more_fuel fuel' fuel) in H2.
    rewrite Nat.add_comm in H2. congruence.
Qed.

(** ** Block numbers *)

Lemma numbered_core (c1 c2 : list Block) :
  core <$> c1 = core <$> c2 -> numbered c1 -> numbered c2.
Proof.
  intros E H i b Hb.
  destruct (core_lookup c1 c2 i b E Hb) as (b' & Hb' & Eb).
  rewrite <- (num_core b' b Eb). exact (H i b' Hb').
Qed.

Lemma mine_block_numbered (fuel : nat) (now : float) (self self' : BlockchainNode)
  (out : list string) :
  numbered (blocks self) -> mine_block fuel now self = Some (self', out) ->
  numbered (blocks self').
Proof.
  intros Hn. rewrite mine_block_unfold.
  destruct (pow_search fuel _ _ 0) as [found|] eqn:Hs; [| discriminate].
  intros [= <- _]. simpl.
  apply pow_search_Some in Hs. destruct Hs as (Hnum & _).
  assert (Hr : numbered (refresh_last (blocks self))).
  { revert Hn. apply numbered_core. symmetry. apply core_refresh_last. }
  intros i b Hb.
  destruct (decide (i < length (refresh_last (blocks self)))%nat) as [Hlt | Hge].
  - rewrite lookup_app_l in Hb by exact Hlt. exact (Hr i b Hb).
  - pose proof (lookup_lt_Some _ _ _ Hb) as Hlen.
    rewrite length_app in Hlen. simpl in Hlen.
    rewrite lookup_app_r in Hb by lia.
    replace (i - length (refresh_last (blocks self)))%nat with 0%nat in Hb by lia.
    injection Hb as <-. rewrite Hnum. unfold candidate_block; simpl.
    rewrite length_refresh_last in Hge, Hlen.
    destruct (last (blocks self)) as [prev_block|] eqn:Hlast.
    + rewrite last_lookup in Hlast.
      rewrite (Hn _ _ Hlast).
      pose proof (lookup_lt_Some _ _ _ Hlast). lia.
    + apply last_None in Hlast. rewrite Hlast in Hge, Hlen. simpl in *. lia.
Qed.

(** X3. In every reachable node the block at index [i] has number [i]: the
    numbers start at 0 and go up by one. *)
Theorem reachable_blocks_numbered (self : BlockchainNode) (i : nat) (b : Block) :
  reachable self -> blocks self !! i = Some b -> num b = Z.of_nat i.
Proof.
  intros H. revert i b. change (numbered (blocks self)).
  induction H as [fuel now miner self out H | self t _ IH
                 | self fuel now self' out _ IH H].
  - apply (mine_block_numbered fuel now _ self out) in H; [exact H |].
    intros i b Hb. discriminate Hb.
  - now rewrite (proj1 (submit_transaction_keeps self t)).
  - exact (mine_block_numbered fuel now self self' out IH H).
Qed.

End Mining.

Section Validation.
Context {P : Primitives}.

(** ** validate_chain on the node's own chains *)

Lemma reachable_linked (self : BlockchainNode) : reachable self -> linked (blocks self).
Proof.
  induction 1 as [fuel now miner self out H | self t _ IH
                 | self fuel now self' out _ IH H].
  - apply (mine_block_linked fuel now _ self out) in H; [apply H |].
    intros i p c Hp. discriminate Hp.
  - now rewrite (proj1 (submit_transaction_keeps self t)).
  - apply (mine_block_linked fuel now self self' out IH H).
Qed.

Lemma mine_block_all_pass (fuel : nat) (now : float) (self self' : BlockchainNode)
  (out : list string) :
  Forall (fun b => pow_ok (proof_of_work_func self) b = true) (blocks self) ->
  mine_block fuel now self = Some (self', out) ->
  Forall (fun b => pow_ok (proof_of_work_func self') b = true) (blocks self').
Proof.
  intros Hall. rewrite mine_block_unfold.
  destruct (pow_search fuel _ _ 0) as [found|] eqn:Hs; [| discriminate].
  intros [= <- _]. simpl.
  apply pow_search_Some in Hs.
  apply Forall_app. split; [| repeat constructor; apply Hs].
  revert Hall. apply Forall_core; [| symmetry; apply core_refresh_last].
  intros b b' E. now rewrite (pow_ok_core _ b b' E).
Qed.

Lemma reachable_all_pass (self : BlockchainNode) :
  reachable self ->
  Forall (fun b => pow_ok (proof_of_work_func self) b = true) (blocks self).
Proof.
  induction 1 as [fuel now miner self out H | self t _ IH
                 | self fuel now self' out _ IH H].
  - apply (mine_block_all_pass fuel now _ self out) in H; [exact H | constructor].
  - destruct (submit_transaction_keeps self t) as (-> & _ & ->). exact IH.
  - exact (mine_block_all_pass fuel now self self' out IH H).
Qed.

Lemma sound_chain_validates (self : BlockchainNode) :
  linked (blocks self) ->
  Forall (fun b => pow_ok (proof_of_work_func self) b = true) (blocks self) ->
  fst (fst (validate_chain self)) = Return true
  /\ snd (validate_chain self) = [validated_message (blocks self)].
Proof.
  intros Hlinked Hpass.
  destruct (validate_chain_run self) as (r & chain' & -> & Hcore & Hrep).
  destruct r as [line|]; simpl.
  - exfalso. simpl in Hrep.
    destruct Hrep as (j & Hj & (p & c & Hp & Hc & Hf) & _).
    destruct j as [|j]; [lia |].
    replace (S j - 1)%nat with j in Hp by lia.
    pose proof (Hlinked j p c Hp Hc) as Hl.
    pose proof (proj1 (Forall_lookup _ _) Hpass (S j) c Hc) as Hw.
    assert (Hl' : linkage_ok p c = true) by now apply String.eqb_eq.
    simpl in Hw. destruct Hf as [[Hf _] | (_ & Hf & _)]; congruence.
  - split; [reflexivity |]. unfold validated_message.
    now rewrite <- (length_fmap core chain'), Hcore, length_fmap.
Qed.

(** X4. [validate_chain] accepts every chain that the node's own methods
    have built: on a reachable node it returns [True] and prints the size
    of the chain. *)
Theorem reachable_chain_validates (self : BlockchainNode) :
  reachable self ->
  fst (fst (validate_chain self)) = Return true
  /\ snd (validate_chain self)
     = ["Successfully validated chain of size "
        +:+ str_int (Z.of_nat (length (blocks self))) +:+ "!"].
Proof.
  intros Hr. apply sound_chain_validates.
  - exact (reachable_linked self Hr).
  - exact (reachable_all_pass self Hr).
Qed.

(** ** validate_chain and the cached hashes *)

Lemma loop_reports_unique (pow : string -> bool) (chain : list Block) (i n : nat)
  (r r' : option string) :
  loop_reports pow chain i n r -> loop_reports pow chain i n r' -> r = r'.
Proof.
  assert (Hno : forall j line, pair_fails pow chain j line ->
                               pair_passes pow chain j -> False).
  { intros j line (p & c & Hp & Hc & Hf) Hpass.
    destruct (Hpass p c Hp Hc) as [Hl Hw].
    destruct Hf as [[Hf _] | (_ & Hf & _)]; congruence. }
  destruct r as [line|], r' as [line'|]; simpl; intros H H'; try reflexivity.
  - destruct H as (j & Hj & Hf & Hb), H' as (j' & Hj' & Hf' & Hb').
    assert (j = j').
    { destruct (Nat.lt_trichotomy j j') as [Hlt | [-> | Hgt]]; [| reflexivity |].
      - exfalso. apply (Hno j line Hf). apply Hb'. lia.
      - exfalso. apply (Hno j' line' Hf'). apply Hb. lia. }
    subst j'. f_equal.
    destruct Hf as (p & c & Hp & Hc & Hf), Hf' as (p' & c' & Hp' & Hc' & Hf').
    assert (p' = p) by congruence. assert (c' = c) by congruence. subst.
    destruct Hf as [[Hl ->] | (Hl & Hw & ->)],
             Hf' as [[Hl' ->] | (Hl' & Hw' & ->)]; congruence.
  - exfalso. destruct H as (j & Hj & Hf & _). exact (Hno j line Hf (H' j Hj)).
  - exfalso. destruct H' as (j & Hj & Hf & _). exact (Hno j line' Hf (H j Hj)).
Qed.

(** X5. [validate_chain] recomputes every hash it compares: its result and
    the line it prints depend on the block headers only, never on the
    [block_hash] fields.  Two nodes whose chains agree except for cached
    hashes get the same verdict, so a stale or overwritten cache is neither
    noticed nor trusted; and a second call, on the node the first call
    leaves, repeats the first verdict. *)
Theorem validate_chain_ignores_caches (self other : BlockchainNode) :
  (core <$> blocks self = core <$> blocks other ->
   proof_of_work_func self = proof_of_work_func other ->
   fst (fst (validate_chain self)) = fst (fst (validate_chain other))
   /\ snd (validate_chain self) = snd (validate_chain other))
  /\ fst (fst (validate_chain (snd (fst (validate_chain self)))))
     = fst (fst (validate_chain self))
  /\ snd (validate_chain (snd (fst (validate_chain self))))
     = snd (validate_chain self).
Proof.
  assert (Hgen : forall a b : BlockchainNode,
             core <$> blocks a = core <$> blocks b ->
             proof_of_work_func a = proof_of_work_func b ->
             fst (fst (validate_chain a)) = fst (fst (validate_chain b))
             /\ snd (validate_chain a) = snd (validate_chain b)).
  { intros a b E Epow.
    destruct (validate_chain_run a) as (r & ca & -> & Hca & Hra).
    destruct (validate_chain_run b) as (r' & cb & -> & Hcb & Hrb).
    assert (Hlen : length (blocks a) = length (blocks b)).
    { now rewrite <- (length_fmap core (blocks a)), E, length_fmap. }
    rewrite Epow, Hlen in Hra.
    apply (loop_reports_core _ (blocks b) (blocks a)) in Hra; [| now symmetry].
    rewrite (loop_reports_unique _ _ _ _ r r' Hra Hrb). simpl.
    split; [reflexivity |]. destruct r'; [reflexivity |].
    unfold validated_message.
    rewrite <- (length_fmap core ca), Hca, <- (length_fmap core cb), Hcb.
    now rewrite !length_fmap, Hlen. }
  split; [apply Hgen |].
  destruct (validate_chain_run self) as (r & chain' & Hrun & Hcore & _).
  apply and_comm, and_comm. apply Hgen.
  - rewrite Hrun. exact Hcore.
  - rewrite Hrun. reflexivity.
Qed.

End Validation.

Section Balances.
Context {P : Primitives}.

(** ** get_balance and the other methods *)

Lemma balance_untouched (R : Type) (add sub : R -> R -> R) (amount : Transaction -> R)
  (address : PublicKey) (ts : list Transaction) (balance : R) :
  (forall t, In t ts -> sender_address t <> address /\ recipient_address t <> address) ->
  fold_left (balance_step add sub amount address) ts balance = balance.
Proof.
  revert balance. induction ts as [|t ts IH]; intros balance H; [reflexivity |].
  simpl. destruct (H t (or_introl eq_refl)) as [Hs Hr].
  unfold balance_step at 2.
  rewrite (PublicKey_eqb_neq _ _ Hs), (PublicKey_eqb_neq _ _ Hr).
  apply IH. intros t' Ht'. apply H. now right.
Qed.

(** X6. Mining applies the pool to the balances: after a [mine_block] that
    returns, the balance of any address is its balance before, with, for
    each pooled transaction in pool order, the value subtracted if the
    address is the sender and then the value added if it is the recipient.
    So a block that holds only the reward adds [2.0] to the balance of the
    miner and subtracts [2.0] from that of [PublicKey(0, 0)], and an address
    that no pooled transaction names keeps its balance.  Nothing else moves
    a balance: [submit_transaction] leaves every balance as it is. *)
Theorem mine_block_applies_pool (fuel : nat) (now : float)
  (self self' : BlockchainNode) (out : list string) (address : PublicKey) :
  mine_block fuel now self = Some (self', out) ->
  get_balance self' address
  = fold_left
      (fun balance t =>
         if PublicKey_eqb (recipient_address t) address
         then ((if PublicKey_eqb (sender_address t) address
                then balance - value t else balance) + value t)%float
         else if PublicKey_eqb (sender_address t) address
              then (balance - value t)%float else balance)
      (pending_transactions self) (get_balance self address)
  /\ (pending_transactions self
      = [new_Transaction reward_sender (miner_address self) 2%float] ->
      miner_address self <> reward_sender ->
      get_balance self' (miner_address self)
      = (get_balance self (miner_address self) + 2)%float
      /\ get_balance self' reward_sender
         = (get_balance self reward_sender - 2)%float)
  /\ ((forall t, In t (pending_transactions self) ->
                 sender_address t <> address /\ recipient_address t <> address) ->
      get_balance self' address = get_balance self address)
  /\ forall t,
       get_balance (self_ (snd (submit_transaction self t))) address
       = get_balance self address.
Proof.
  intros H. destruct (mine_block_ledger _ _ _ _ _ H) as (L & _ & _).
  assert (B : forall a,
             get_balance self' a
             = fold_left (balance_step PrimFloat.add PrimFloat.sub value a)
                 (pending_transactions self) (get_balance self a)).
  { intros a. unfold get_balance. now rewrite !balance_over_flat, L, fold_left_app. }
  split; [rewrite B; reflexivity |].
  split; [| split].
  - intros E Hm. rewrite !B, E. simpl. unfold balance_step. simpl.
    rewrite !PublicKey_eqb_refl.
    rewrite (PublicKey_eqb_neq reward_sender (miner_address self)) by congruence.
    rewrite (PublicKey_eqb_neq (miner_address self) reward_sender) by congruence.
    split; reflexivity.
  - intros Hn. rewrite B. apply balance_untouched. exact Hn.
  - intros t. unfold get_balance.
    now rewrite (proj1 (submit_transaction_keeps self t)).
Qed.

Lemma unnamed_balance (self : BlockchainNode) (address : PublicKey) :
  ~ In address (chain_addresses (blocks self)) ->
  get_balance self address = 0%float.
Proof.
  intros Hnot. unfold get_balance. rewrite balance_over_flat.
  apply balance_untouched.
  intros t Ht. apply in_flat_map in Ht. destruct Ht as (b & Hb & Ht).
  split; intros E; apply Hnot; unfold chain_addresses; apply in_flat_map;
    exists b; (split; [exact Hb |]); apply in_flat_map; exists t;
    (split; [exact Ht |]); simpl; auto.
Qed.

(** X7. An address that no transaction of the chain names, as sender or as
    recipient, has balance [0.0]; so a transaction of positive value that
    it signs is rejected for insufficient funds and never pooled. *)
Theorem stranger_has_nothing (self : BlockchainNode) (address : PublicKey) :
  ~ In address (chain_addresses (blocks self)) ->
  get_balance self address = 0%float
  /\ forall t,
       sender_address t = address ->
       fst (Transaction_validate t) = Return tt ->
       PrimFloat.ltb 0 (value t) = true ->
       (exists e, fst (submit_transaction self t) = Raise e)
       /\ self_ (snd (submit_transaction self t)) = self.
Proof.
  intros Hnot.
  pose proof (unnamed_balance self address Hnot) as Hz.
  split; [exact Hz |].
  intros t Hs Hv Hpos.
  rewrite (submit_transaction_insufficient self t Hv) by now rewrite Hs, Hz.
  simpl. split; [| reflexivity].
  destruct (validation_failure_reason t); eauto.
Qed.

(** X8. Right after construction every balance is [0.0]: the genesis block
    holds no transaction and the first reward is only pooled.  A validly
    signed transaction is then pooled exactly when its value is not greater
    than [0.0]; a positive value is rejected. *)
Theorem fresh_node_has_no_funds (fuel : nat) (now : float) (miner : PublicKey)
  (self : BlockchainNode) (out : list string) :
  new_BlockchainNode fuel now miner = Some (self, out) ->
  (forall address, get_balance self address = 0%float)
  /\ forall t,
       fst (Transaction_validate t) = Return tt ->
       (fst (submit_transaction self t) = Return tt
        <-> PrimFloat.ltb 0 (value t) = false).
Proof.
  intros H.
  assert (Hz : forall address, get_balance self address = 0%float).
  { intros address. apply unnamed_balance.
    unfold new_BlockchainNode in H.
    destruct (mine_block_ledger _ _ _ _ _ H) as (L & _ & _). simpl in L.
    unfold chain_addresses.
    assert (E : forall chain,
               flat_map (fun b => flat_map
                                    (fun t => [sender_address t; recipient_address t])
                                    (transactions b)) chain
               = flat_map (fun t => [sender_address t; recipient_address t])
                          (flat_map transactions chain)).
    { induction chain as [|b chain IH]; simpl; [reflexivity |].
      now rewrite flat_map_app, IH. }
    rewrite E, L. simpl. tauto. }
  split; [exact Hz |].
  intros t Hv. destruct (PrimFloat.ltb 0 (value t)) eqn:Hb.
  - rewrite (submit_transaction_insufficient self t Hv) by now rewrite Hz.
    simpl. split; [| discriminate].
    now destruct (validation_failure_reason t).
  - rewrite (submit_transaction_accepted self t Hv) by now rewrite Hz.
    simpl. tauto.
Qed.

(** ** submit_transaction and the pool *)

Lemma submit_transaction_pool_blind (self : BlockchainNode) (pool : list Transaction)
  (t : Transaction) :
  fst (submit_transaction (set_pending_transactions pool self) t)
  = fst (submit_transaction self t)
  /\ stdout (snd (submit_transaction (set_pending_transactions pool self) t))
     = stdout (snd (submit_transaction self t)).
Proof.
  destruct (submit_transaction_cases self t) as [[e He] | [[Hv Hb] | [Hv Hb]]].
  - now rewrite !(submit_transaction_invalid _ t e He).
  - rewrite (submit_transaction_insufficient self t Hv Hb).
    now rewrite (submit_transaction_insufficient
                   (set_pending_transactions pool self) t Hv Hb).
  - rewrite (submit_transaction_accepted self t Hv Hb).
    now rewrite (submit_transaction_accepted
                   (set_pending_transactions pool self) t Hv Hb).
Qed.

(** X9. The balance check of [submit_transaction] reads the chain only: what
    the call returns or raises, and what it prints, do not depend on the
    pending pool.  So a transaction that was accepted is accepted again when
    submitted again before the next block, and the same sender can pool
    more than it owns. *)
Theorem submit_transaction_ignores_pool (self : BlockchainNode) (t : Transaction) :
  (forall pool,
      fst (submit_transaction (set_pending_transactions pool self) t)
      = fst (submit_transaction self t)
      /\ stdout (snd (submit_transaction (set_pending_transactions pool self) t))
         = stdout (snd (submit_transaction self t)))
  /\ (fst (submit_transaction self t) = Return tt ->
      fst (submit_transaction (self_ (snd (submit_transaction self t))) t)
      = Return tt
      /\ pending_transactions
           (self_ (snd (submit_transaction
                          (self_ (snd (submit_transaction self t))) t)))
         = pending_transactions self ++ [t; t]).
Proof.
  split; [intros pool; apply submit_transaction_pool_blind |].
  destruct (submit_transaction_cases self t) as [[e He] | [[Hv Hb] | [Hv Hb]]].
  - rewrite (submit_transaction_invalid self t e He). discriminate.
  - rewrite (submit_transaction_insufficient self t Hv Hb). simpl.
    destruct (validation_failure_reason t); discriminate.
  - intros _. rewrite (submit_transaction_accepted self t Hv Hb). simpl.
    rewrite (submit_transaction_accepted _ t Hv) by exact Hb. simpl.
    split; [reflexivity |]. now rewrite <- app_assoc.
Qed.

End Balances.

Section Shape.
Context {P : Primitives}.

(** ** What the pool and the blocks hold *)

Lemma transactions_core (b b' : Block) : core b = core b' -> transactions b = transactions b'.
Proof. intros E. exact (f_equal transactions E). Qed.

Lemma ledger_shape_mine (fuel : nat) (now : float) (self self' : BlockchainNode)
  (out : list string) :
  (blocks self = [] /\ pending_transactions self = [] \/ ledger_shape self) ->
  mine_block fuel now self = Some (self', out) ->
  ledger_shape self'.
Proof.
  intros Hs. rewrite mine_block_unfold.
  destruct (pow_search fuel _ _ 0) as [found|] eqn:Hf; [| discriminate].
  intros [= <- _]. unfold ledger_shape. simpl.
  apply pow_search_Some in Hf. destruct Hf as (_ & _ & _ & Ht & _).
  simpl in Ht.
  split; [now destruct (refresh_last (blocks self)) |].
  split; [exists []; split; [reflexivity | constructor] |].
  intros i b Hb.
  destruct (decide (i < length (refresh_last (blocks self)))%nat) as [Hlt | Hge].
  - rewrite lookup_app_l in Hb by exact Hlt.
    destruct (core_lookup (blocks self) (refresh_last (blocks self)) i b) as (b' & Hb' & E);
      [symmetry; apply core_refresh_last | exact Hb |].
    rewrite <- (transactions_core b' b E).
    destruct Hs as [[Hnil _] | (_ & _ & Hblocks)].
    + rewrite Hnil in Hb'. discriminate Hb'.
    + exact (Hblocks i b' Hb').
  - pose proof (lookup_lt_Some _ _ _ Hb) as Hlen.
    rewrite length_app in Hlen. simpl in Hlen.
    rewrite lookup_app_r in Hb by lia.
    replace (i - length (refresh_last (blocks self)))%nat with 0%nat in Hb by lia.
    injection Hb as <-. rewrite Ht.
    rewrite length_refresh_last in Hge, Hlen.
    destruct Hs as [[Hnil Hpool] | (Hne & Hpool & _)].
    + rewrite Hnil in Hge, Hlen. simpl in *.
      replace i with 0%nat by lia. exact Hpool.
    + destruct i as [|i]; [| exact Hpool].
      destruct (blocks self); [contradiction | simpl in Hge; lia].
Qed.

(** X10. In every reachable node the first block holds no transaction, and
    every later block, like the pool, holds first the unsigned reward for
    the node's miner and then only transactions whose signature verifies:
    nothing enters the pool, and so a block, without passing [validate]
    except the reward, which is never validated. *)
Theorem reachable_ledger_shape (self : BlockchainNode) :
  reachable self ->
  blocks self <> []
  /\ reward_then_validated (miner_address self) (pending_transactions self)
  /\ forall (i : nat) (b : Block),
       blocks self !! i = Some b ->
       match i with
       | O => transactions b = []
       | S _ => reward_then_validated (miner_address self) (transactions b)
       end.
Proof.
  change (reachable self -> ledger_shape self).
  induction 1 as [fuel now miner self out H | self t _ IH
                 | self fuel now self' out _ IH H].
  - apply (ledger_shape_mine fuel now _ self out) in H; [exact H |].
    left. split; reflexivity.
  - destruct (submit_transaction_cases self t) as [[e He] | [[Hv Hb] | [Hv Hb]]].
    + now rewrite (submit_transaction_invalid self t e He).
    + now rewrite (submit_transaction_insufficient self t Hv Hb).
    + rewrite (submit_transaction_accepted self t Hv Hb).
      destruct IH as (Hne & (rest & Hpool & Hvalid) & Hblocks).
      unfold ledger_shape. simpl.
      split; [exact Hne |]. split; [| exact Hblocks].
      exists (rest ++ [t]). rewrite Hpool. split; [reflexivity |].
      apply Forall_app. split; [exact Hvalid | now repeat constructor].
  - apply (ledger_shape_mine fuel now self self' out); auto.
Qed.

End Shape.

Section Signing.
Context {P : Primitives}.

(** ** Transaction.sign and Transaction.validate *)

(** X11. [sign] signs and verifies the same bytes, which do not contain the
    signature.  When [rsa.sign] raises, the transaction is untouched.  When
    it returns, the signature is stored before the self-check: if the check
    passes, only the signature has changed and a later [validate] passes
    too; if it raises, the exception leaves [sign] and the transaction keeps
    the new signature together with the recorded reason. *)
Theorem Transaction_sign_spec (t : Transaction) (key : PrivateKey) :
  (forall e, rsa_sign (get_core_data t) key = Raise e ->
             Transaction_sign t key = (Raise e, t))
  /\ (forall sig h,
        rsa_sign (get_core_data t) key = Return sig ->
        rsa_verify (get_core_data t) sig (sender_address t) = Return h ->
        Transaction_sign t key = (Return tt, set_signature sig t)
        /\ Transaction_validate (set_signature sig t)
           = (Return tt, set_signature sig t))
  /\ (forall sig e,
        rsa_sign (get_core_data t) key = Return sig ->
        rsa_verify (get_core_data t) sig (sender_address t) = Raise e ->
        Transaction_sign t key
        = (Raise e, set_validation_failure_reason (exn_str e) (set_signature sig t))).
Proof.
  unfold Transaction_sign, Transaction_validate.
  split; [| split].
  - intros e Hs. now rewrite Hs.
  - intros s h Hs Hv. rewrite Hs.
    change (get_core_data (set_signature s t)) with (get_core_data t). simpl.
    now rewrite Hv.
  - intros s e Hs Hv. rewrite Hs.
    change (get_core_data (set_signature s t)) with (get_core_data t). simpl.
    now rewrite Hv.
Qed.

(** X12. [validate] and [sign] never remove a recorded failure reason, and
    never change sender, recipient or value.  So a transaction that once
    failed and was then signed again reports the old reason: if it is then
    rejected for insufficient funds, [submit_transaction] prints the old
    signature failure after the transaction's fields, and the exception
    that leaves the call is the insufficient-funds one. *)
Theorem stale_reason_is_reported (self : BlockchainNode) (t : Transaction)
  (reason : string) :
  validation_failure_reason t = Some reason ->
  (sender_address (snd (Transaction_validate t)) = sender_address t
   /\ recipient_address (snd (Transaction_validate t)) = recipient_address t
   /\ value (snd (Transaction_validate t)) = value t
   /\ signature (snd (Transaction_validate t)) = signature t)
  /\ (fst (Transaction_validate t) = Return tt ->
      get_validation_failure_reason (snd (Transaction_validate t)) = Return reason)
  /\ (forall key,
        fst (Transaction_sign t key) = Return tt ->
        get_validation_failure_reason (snd (Transaction_sign t key)) = Return reason)
  /\ (fst (Transaction_validate t) = Return tt ->
      PrimFloat.ltb (get_balance self (sender_address t)) (value t) = true ->
      reason <> EmptyString ->
      fst (submit_transaction self t)
      = Raise (insufficient_tokens (value t) (get_balance self (sender_address t)))
      /\ stdout (snd (submit_transaction self t))
         = failure_report
             (insufficient_tokens (value t) (get_balance self (sender_address t))) t
           ++ ["Validation Failure Reason: " +:+ reason]).
Proof.
  intros Hr. split; [| split; [| split]].
  - unfold Transaction_validate. destruct (rsa_verify _ _ _); simpl; auto.
  - intros Hv. rewrite (Transaction_validate_Return t Hv).
    unfold get_validation_failure_reason. now rewrite Hr.
  - intros key. unfold Transaction_sign.
    destruct (rsa_sign _ _) as [sig|e]; simpl; [| discriminate].
    intros Hv. rewrite (Transaction_validate_Return _ Hv).
    unfold get_validation_failure_reason. simpl. now rewrite Hr.
  - intros Hv Hb Hne. rewrite (submit_transaction_insufficient self t Hv Hb).
    rewrite Hr. simpl. split; [reflexivity |]. unfold reason_report.
    destruct (String.eqb reason EmptyString) eqn:E; [| reflexivity].
    apply String.eqb_eq in E. contradiction.
Qed.

(** ** Block.get_header *)

(** X13. [get_header] joins the fields with nothing between them, so it
    does not determine them: moving a digit from the end of
    [prev_block_hash] to the front of the nonce gives a different block
    with the same header, and so the same hash. *)
Theorem get_header_joins_fields (b : Block) (prefix : string) :
  get_header
    {| num := num b; timestamp := timestamp b; prev_block_hash := prefix +:+ "1";
       transactions := transactions b; block_hash := block_hash b; nonce := 2 |}
  = get_header
      {| num := num b; timestamp := timestamp b; prev_block_hash := prefix;
         transactions := transactions b; block_hash := block_hash b; nonce := 12 |}
  /\ snd (Block_hash
            {| num := num b; timestamp := timestamp b;
               prev_block_hash := prefix +:+ "1";
               transactions := transactions b; block_hash := block_hash b;
               nonce := 2 |})
     = snd (Block_hash
              {| num := num b; timestamp := timestamp b; prev_block_hash := prefix;
                 transactions := transactions b; block_hash := block_hash b;
                 nonce := 12 |}).
Proof.
  assert (H : forall a rest : string,
             (prefix +:+ a) +:+ rest = prefix +:+ (a +:+ rest)).
  { intros a rest. induction prefix as [|c p IH]; [reflexivity |].
    change (String c ((p +:+ a) +:+ rest) = String c (p +:+ (a +:+ rest))).
    now rewrite IH. }
  unfold Block_hash, get_header; cbn [num timestamp prev_block_hash nonce transactions
                                       fst snd].
  rewrite H. split; reflexivity.
Qed.

End Signing.

(** ** The difficulty predicate *)

Lemma length_append_string (p x : string) :
  String.length (p +:+ x) = (String.length p + String.length x)%nat.
Proof.
  induction p as [|c p IH]; [reflexivity |].
  change (S (String.length (p +:+ x)) = S (String.length p + String.length x)).
  now rewrite IH.
Qed.

Lemma substring_all (x : string) : substring 0 (String.length x) x = x.
Proof. induction x as [|c x IH]; simpl; [reflexivity | now rewrite IH]. Qed.

Lemma substring_skip (p x : string) (n : nat) :
  substring (String.length p) n (p +:+ x) = substring 0 n x.
Proof.
  induction p as [|c p IH]; [reflexivity |].
  change (substring (S (String.length p)) n (String c (p +:+ x)) = substring 0 n x).
  simpl. exact IH.
Qed.

Lemma substring_split (s : string) :
  forall m : nat,
    (m <= String.length s)%nat ->
    s = substring 0 m s +:+ substring m (String.length s - m) s.
Proof.
  induction s as [|c s IH]; intros m Hm.
  - destruct m; reflexivity.
  - destruct m as [|m].
    + change (String c s
              = substring 0 (String.length (String c s)) (String c s)).
      now rewrite substring_all.
    + simpl in Hm.
      change (String c s
              = String c (substring 0 m s
                          +:+ substring m (String.length s - m) s)).
      f_equal. apply IH. lia.
Qed.

(** [s.endswith(suffix)] holds exactly for the strings that end in
    [suffix]. *)
Lemma endswith_spec (s suffix : string) :
  endswith s suffix = true <-> exists p, s = p +:+ suffix.
Proof.
  unfold endswith. rewrite andb_true_iff, Nat.leb_le, String.eqb_eq. split.
  - intros [Hle Hsub]. exists (substring 0 (String.length s - String.length suffix) s).
    pose proof (substring_split s (String.length s - String.length suffix)) as H.
    replace (String.length s - (String.length s - String.length suffix))%nat
      with (String.length suffix) in H by lia.
    rewrite Hsub in H. apply H. lia.
  - intros [p ->]. rewrite length_append_string. split; [lia |].
    replace (String.length p + String.length suffix - String.length suffix)%nat
      with (String.length p) by lia.
    rewrite substring_skip. apply substring_all.
Qed.

Section Predicate.
Context {P : Primitives}.

Lemma mine_block_caches (fuel : nat) (now : float) (self self' : BlockchainNode)
  (out : list string) :
  Forall cache_fresh (blocks self) ->
  mine_block fuel now self = Some (self', out) ->
  Forall cache_fresh (blocks self').
Proof.
  intros Hall. rewrite mine_block_unfold.
  destruct (pow_search fuel _ _ 0) as [found|] eqn:Hs; [| discriminate].
  intros [= <- _]. simpl.
  apply pow_search_Some in Hs. destruct Hs as (_ & _ & _ & _ & _ & Hc).
  apply Forall_app. split; [| repeat constructor; exact Hc].
  unfold refresh_last. destruct (last (blocks self)) as [prev_block|]; [| exact Hall].
  apply Forall_insert; [exact Hall | reflexivity].
Qed.

(** X14. The predicate that [__init__] installs is never replaced: in a
    reachable node it accepts exactly the strings that end in [000].  Every
    block of a reachable chain has an up-to-date [block_hash], and that hash
    ends in [000]. *)
Theorem reachable_hashes_end_in_000 (self : BlockchainNode) :
  reachable self ->
  (forall h, proof_of_work_func self h = true <-> exists p, h = p +:+ "000")
  /\ Forall (fun b => block_hash b = snd (Block_hash b)
                      /\ exists p, block_hash b = p +:+ "000")
            (blocks self).
Proof.
  intros Hr.
  assert (Hpow : forall h,
             proof_of_work_func self h = true <-> exists p, h = p +:+ "000").
  { intros h. rewrite (reachable_predicate self Hr). apply endswith_spec. }
  split; [exact Hpow |].
  assert (Hfresh : Forall cache_fresh (blocks self)).
  { clear Hpow. induction Hr as [fuel now miner self out H | self t _ IH
                               | self fuel now self' out _ IH H].
    - apply (mine_block_caches fuel now _ self out) in H; [exact H | constructor].
    - now rewrite (proj1 (submit_transaction_keeps self t)).
    - exact (mine_block_caches fuel now self self' out IH H). }
  pose proof (reachable_all_pass self Hr) as Hpass.
  apply Forall_lookup. intros i b Hb.
  pose proof (proj1 (Forall_lookup _ _) Hfresh i b Hb) as Hf.
  pose proof (proj1 (Forall_lookup _ _) Hpass i b Hb) as Hp.
  split; [exact Hf |]. rewrite Hf. apply Hpow. exact Hp.
Qed.

End Predicate.

(** ** Values that are not numbers *)

Lemma ltb_nan (x y : float) :
  Prim2SF x = S754_nan \/ Prim2SF y = S754_nan -> PrimFloat.ltb x y = false.
Proof.
  rewrite ltb_spec. unfold SFltb.
  intros [H | H]; rewrite H; [reflexivity |]. now destruct (Prim2SF x).
Qed.

Lemma sub_nan (x y : float) :
  Prim2SF x = S754_nan \/ Prim2SF y = S754_nan -> Prim2SF (x - y) = S754_nan.
Proof.
  rewrite sub_spec. unfold SF64sub.
  intros [H | H]; rewrite H; [reflexivity |]. now destruct (Prim2SF x).
Qed.

Lemma add_nan (x y : float) :
  Prim2SF x = S754_nan \/ Prim2SF y = S754_nan -> Prim2SF (x + y) = S754_nan.
Proof.
  rewrite add_spec. unfold SF64add.
  intros [H | H]; rewrite H; [reflexivity |]. now destruct (Prim2SF x).
Qed.

Lemma balance_step_stays_nan (address : PublicKey) (balance : float) (t : Transaction) :
  Prim2SF balance = S754_nan ->
  Prim2SF (balance_step PrimFloat.add PrimFloat.sub value address balance t)
  = S754_nan.
Proof.
  intros H. unfold balance_step.
  destruct (PublicKey_eqb (sender_address t) address),
           (PublicKey_eqb (recipient_address t) address);
    auto using add_nan, sub_nan.
Qed.

Lemma balance_stays_nan (address : PublicKey) (ts : list Transaction) :
  forall balance,
    Prim2SF balance = S754_nan ->
    Prim2SF (fold_left (balance_step PrimFloat.add PrimFloat.sub value address)
                       ts balance) = S754_nan.
Proof.
  induction ts as [|t ts IH]; intros balance H; [exact H |].
  simpl. apply IH. now apply balance_step_stays_nan.
Qed.

Lemma balance_turns_nan (address : PublicKey) (t0 : Transaction)
  (ts : list Transaction) :
  In t0 ts -> Prim2SF (value t0) = S754_nan ->
  sender_address t0 = address \/ recipient_address t0 = address ->
  forall balance,
    Prim2SF (fold_left (balance_step PrimFloat.add PrimFloat.sub value address)
                       ts balance) = S754_nan.
Proof.
  intros Hin Hnan Hparty.
  induction ts as [|t ts IH]; intros balance; [destruct Hin |].
  simpl. destruct Hin as [-> | Hin]; [| now apply IH].
  apply balance_stays_nan. unfold balance_step.
  destruct Hparty as [<- | <-]; rewrite PublicKey_eqb_refl.
  - destruct (PublicKey_eqb (recipient_address t0) (sender_address t0));
      auto using add_nan, sub_nan.
  - destruct (PublicKey_eqb (sender_address t0) (recipient_address t0));
      auto using add_nan, sub_nan.
Qed.

Section NotANumber.
Context {P : Primitives}.

(** X15. [submit_transaction] rejects on [balance < value], which is false
    when either side is NaN.  So a validly signed transaction whose value
    is NaN is pooled whatever the sender owns; and once a block holds such a
    transaction, the balances of its sender and of its recipient are NaN,
    and every validly signed transaction of either is pooled, whatever its
    value. *)
Theorem nan_defeats_balance_check (self : BlockchainNode) :
  (forall t,
      fst (Transaction_validate t) = Return tt ->
      Prim2SF (value t) = S754_nan ->
      fst (submit_transaction self t) = Return tt
      /\ pending_transactions (self_ (snd (submit_transaction self t)))
         = pending_transactions self ++ [t])
  /\ (forall b t0 address,
        In b (blocks self) -> In t0 (transactions b) ->
        Prim2SF (value t0) = S754_nan ->
        sender_address t0 = address \/ recipient_address t0 = address ->
        Prim2SF (get_balance self address) = S754_nan
        /\ forall t,
             sender_address t = address ->
             fst (Transaction_validate t) = Return tt ->
             fst (submit_transaction self t) = Return tt
             /\ pending_transactions (self_ (snd (submit_transaction self t)))
                = pending_transactions self ++ [t]).
Proof.
  split.
  - intros t Hv Hnan.
    rewrite (submit_transaction_accepted self t Hv) by (apply ltb_nan; auto).
    auto.
  - intros b t0 address Hb Ht0 Hnan Hparty.
    assert (Hbal : Prim2SF (get_balance self address) = S754_nan).
    { unfold get_balance. rewrite balance_over_flat.
      apply (balance_turns_nan address t0); try assumption.
      apply in_flat_map. eauto. }
    split; [exact Hbal |].
    intros t Hs Hv.
    rewrite (submit_transaction_accepted self t Hv)
      by (apply ltb_nan; left; now rewrite Hs).
    auto.
Qed.

End NotANumber.

(** ** The notebook's run *)

Section Notebook.
Context {P : Primitives}.

Lemma mine_block_prints_index (fuel : nat) (now : float) (self self' : BlockchainNode)
  (out : list string) :
  numbered (blocks self) -> mine_block fuel now self = Some (self', out) ->
  out = ["Successfully mined new block "
         +:+ str_int (Z.of_nat (length (blocks self))) +:+ "!"]
  /\ length (blocks self') = S (length (blocks self)).
Proof.
  intros Hn H. pose proof (mine_block_numbered _ _ _ _ _ Hn H) as Hn'.
  revert H Hn'. rewrite mine_block_unfold.
  destruct (pow_search fuel _ _ 0) as [found|]; [| discriminate].
  intros [= <- <-] Hn'. simpl in *.
  rewrite length_app, length_refresh_last. simpl. split; [| lia].
  unfold mined_message.
  rewrite (Hn' (length (blocks self)) found); [reflexivity |].
  rewrite lookup_app_r by (rewrite length_refresh_last; lia).
  now rewrite length_refresh_last, Nat.sub_diag.
Qed.

(** X16. The run recorded in the notebook.  A node is built for
    [public_key] and mines once more; a signed transaction of [1.0] from
    [public_key] to [receiving_public_key] is submitted and a third block is
    mined; then the balances are read and the chain is validated.  Whatever
    the keys, the times and the library functions, as long as the signature
    verifies and the three searches end: the three calls print the block
    numbers 0, 1 and 2, the first block is the empty genesis block, the
    submission succeeds (the miner owns the first reward, [2.0]), the
    balances are [3.0] and [1.0], and [validate_chain] returns [True] for a
    chain of size 3, as the notebook's outputs show. *)
Theorem notebook_run (public_key receiving_public_key : PublicKey) (t2 : Transaction)
  (fuel0 fuel1 fuel2 : nat) (now0 now1 now2 : float)
  (n0 n1 n2 : BlockchainNode) (out0 out1 out2 : list string) :
  public_key <> reward_sender -> receiving_public_key <> reward_sender ->
  receiving_public_key <> public_key ->
  sender_address t2 = public_key -> recipient_address t2 = receiving_public_key ->
  value t2 = 1%float ->
  fst (Transaction_validate t2) = Return tt ->
  new_BlockchainNode fuel0 now0 public_key = Some (n0, out0) ->
  mine_block fuel1 now1 n0 = Some (n1, out1) ->
  mine_block fuel2 now2 (self_ (snd (submit_transaction n1 t2))) = Some (n2, out2) ->
  out0 = ["Successfully mined new block 0!"]
  /\ out1 = ["Successfully mined new block 1!"]
  /\ (exists first_block,
        blocks n1 !! 0%nat = Some first_block /\ num first_block = 0
        /\ prev_block_hash first_block = "-" /\ transactions first_block = [])
  /\ fst (submit_transaction n1 t2) = Return tt
  /\ stdout (snd (submit_transaction n1 t2)) = ["Transaction submitted successfully."]
  /\ out2 = ["Successfully mined new block 2!"]
  /\ get_balance n2 public_key = 3%float
  /\ get_balance n2 receiving_public_key = 1%float
  /\ fst (fst (validate_chain n2)) = Return true
  /\ snd (validate_chain n2) = ["Successfully validated chain of size 3!"].
Proof.
  intros Hm Hr Hrm Hs Hrc Hv Hok H0 H1 H2.
  assert (R0 : reachable n0) by (eapply reachable_new; exact H0).
  assert (R1 : reachable n1) by (eapply reachable_mine; [exact R0 | exact H1]).
  assert (R2 : reachable n2).
  { eapply reachable_mine; [| exact H2]. now apply reachable_submit. }
  assert (Nnil : numbered []) by (intros i b Hb; discriminate Hb).
  pose (init := {| miner_address := public_key; blocks := [];
                   pending_transactions := [];
                   proof_of_work_func := fun x => endswith x "000" |}).
  pose proof (mine_block_numbered fuel0 now0 init n0 out0 Nnil H0) as N0.
  pose proof (mine_block_numbered _ _ _ _ _ N0 H1) as N1.
  destruct (mine_block_prints_index fuel0 now0 init n0 out0 Nnil H0) as [O0 L0].
  destruct (mine_block_prints_index _ _ _ _ _ N0 H1) as [O1 L1].
  destruct (mine_block_ledger _ _ _ _ _ H0) as (T0 & P0 & M0).
  destruct (mine_block_ledger _ _ _ _ _ H1) as (T1 & P1 & M1).
  destruct (mine_block_ledger _ _ _ _ _ H2) as (T2 & _ & _).
  simpl in L0, O0, T0, P0, M0. rewrite L0 in O1, L1. rewrite T0, P0 in T1.
  simpl in T1.
  assert (B1 : get_balance n1 (sender_address t2) = 2%float).
  { unfold get_balance. rewrite balance_over_flat, T1. simpl.
    unfold balance_step, reward_transaction. simpl. rewrite Hs.
    rewrite (PublicKey_eqb_neq reward_sender public_key) by congruence.
    rewrite PublicKey_eqb_refl. reflexivity. }
  assert (A : submit_transaction n1 t2
              = (Return tt,
                 {| self_ := set_pending_transactions
                               (pending_transactions n1 ++ [t2]) n1;
                    transaction_ := t2;
                    stdout := ["Transaction submitted successfully."] |})).
  { apply submit_transaction_accepted; [exact Hok |]. rewrite B1, Hv. reflexivity. }
  rewrite A in H2, T2 |- *. simpl in H2, T2 |- *.
  destruct (mine_block_prints_index fuel2 now2
              (set_pending_transactions (pending_transactions n1 ++ [t2]) n1)
              n2 out2 N1 H2) as [O2 L2].
  simpl in O2, L2. rewrite L1 in O2, L2.
  rewrite T1, P1 in T2. simpl in T2.
  destruct (sound_chain_validates n2 (reachable_linked n2 R2)
              (reachable_all_pass n2 R2)) as [V1 V2].
  unfold validated_message in V2. rewrite L2 in V2.
  repeat split; try assumption.
  - assert (Hlen : (0 < length (blocks n1))%nat) by lia.
    destruct (lookup_lt_is_Some_2 _ _ Hlen) as [b Hb].
    exists b. split; [exact Hb |]. split; [exact (N1 0%nat b Hb) |].
    revert H1 Hb. rewrite mine_block_unfold.
    destruct (pow_search fuel1 _ _ 0) as [found|]; [| discriminate].
    intros [= <- _] Hb. simpl in Hb.
    assert (Hlen0 : (0 < length (refresh_last (blocks n0)))%nat)
      by (rewrite length_refresh_last; lia).
    rewrite lookup_app_l in Hb by exact Hlen0.
    destruct (core_lookup (blocks n0) (refresh_last (blocks n0)) 0%nat b)
      as (b0 & Hb0 & E); [symmetry; apply core_refresh_last | exact Hb |].
    rewrite <- (prev_block_hash_core b0 b E), <- (transactions_core b0 b E).
    revert H0 Hb0. unfold new_BlockchainNode. rewrite mine_block_unfold.
    destruct (pow_search fuel0 _ _ 0) as [g|] eqn:Hg; [| discriminate].
    intros [= <- _] Hb0. simpl in Hb0. injection Hb0 as <-.
    apply pow_search_Some in Hg. simpl in Hg. now destruct Hg as (_ & _ & -> & -> & _).
  - unfold get_balance. rewrite balance_over_flat, T2. simpl.
    unfold balance_step, reward_transaction. simpl. rewrite Hs, Hrc, Hv, M0. simpl.
    rewrite !PublicKey_eqb_refl.
    rewrite (PublicKey_eqb_neq reward_sender public_key) by congruence.
    rewrite (PublicKey_eqb_neq receiving_public_key public_key) by congruence.
    vm_compute. reflexivity.
  - unfold get_balance. rewrite balance_over_flat, T2. simpl.
    unfold balance_step, reward_transaction. simpl. rewrite Hs, Hrc, Hv, M0. simpl.
    rewrite !PublicKey_eqb_refl.
    rewrite (PublicKey_eqb_neq reward_sender receiving_public_key) by congruence.
    rewrite (PublicKey_eqb_neq public_key receiving_public_key) by congruence.
    vm_compute. reflexivity.
Qed.

End Notebook.

(** ** What a signature covers *)

Lemma append_assoc_string (a b c : string) : (a +:+ b) +:+ c = a +:+ (b +:+ c).
Proof.
  induction a as [|x a IH]; [reflexivity |].
  change (String x ((a +:+ b) +:+ c) = String x (a +:+ (b +:+ c))).
  now rewrite IH.
Qed.

Lemma str_int_free_of (i : Z) :
  free_of ","%char (str_int i) = true /\ free_of ")"%char (str_int i) = true.
Proof.
  assert (Hu : forall d, free_of ","%char (NilEmpty.string_of_uint d) = true
                         /\ free_of ")"%char (NilEmpty.string_of_uint d) = true).
  { induction d as [|d [IH1 IH2]|d [IH1 IH2]|d [IH1 IH2]|d [IH1 IH2]|d [IH1 IH2]
                   |d [IH1 IH2]|d [IH1 IH2]|d [IH1 IH2]|d [IH1 IH2]|d [IH1 IH2]];
      simpl; rewrite ?IH1, ?IH2; split; reflexivity. }
  assert (Hz : forall d, free_of ","%char (NilZero.string_of_uint d) = true
                         /\ free_of ")"%char (NilZero.string_of_uint d) = true).
  { intros d. destruct d; try apply Hu. split; reflexivity. }
  unfold str_int, NilZero.string_of_int.
  destruct (Z.to_int i) as [d|d]; [apply Hz |].
  destruct (Hz d) as [H1 H2]. simpl. rewrite H1, H2. split; reflexivity.
Qed.

(** Two strings free of [c], each followed by [c], split a string in the
    same way. *)
Lemma split_at (c : ascii) (a a' x x' : string) :
  free_of c a = true -> free_of c a' = true ->
  a +:+ String c x = a' +:+ String c x' -> a = a' /\ x = x'.
Proof.
  revert a'. induction a as [|h a IH]; intros [|h' a'] Ha Ha' E.
  - injection E as ->. auto.
  - exfalso. injection E as -> _. simpl in Ha'.
    rewrite Ascii.eqb_refl in Ha'. discriminate.
  - exfalso. injection E as -> _. simpl in Ha.
    rewrite Ascii.eqb_refl in Ha. discriminate.
  - injection E as -> E. simpl in Ha, Ha'.
    apply andb_true_iff in Ha, Ha'.
    destruct (IH a' (proj2 Ha) (proj2 Ha') E) as [-> ->]. auto.
Qed.

Lemma repr_PublicKey_prefix (k k' : PublicKey) (x x' : string) :
  repr_PublicKey k +:+ x = repr_PublicKey k' +:+ x' -> k = k' /\ x = x'.
Proof.
  unfold repr_PublicKey. rewrite !append_assoc_string. intros E.
  apply append_inv_head in E.
  change (str_int (key_n k)
          +:+ String ","%char (" " +:+ str_int (key_e k) +:+ ")" +:+ x)
          = str_int (key_n k')
            +:+ String ","%char (" " +:+ str_int (key_e k') +:+ ")" +:+ x'))
    in E.
  apply split_at in E; try apply str_int_free_of. destruct E as [En E].
  apply (append_inv_head " ") in E.
  change (str_int (key_e k) +:+ String ")"%char x
          = str_int (key_e k') +:+ String ")"%char x') in E.
  apply split_at in E; try apply str_int_free_of. destruct E as [Ee E].
  apply str_int_inj in En, Ee. destruct k, k'; simpl in *. subst. auto.
Qed.

Section CoreData.
Context {P : Primitives}.

(** X17. The bytes that are signed and verified determine the sender, the
    recipient and the text of the value, and nothing else: two transactions
    have the same core data exactly when they agree on the two addresses
    and on [str(value)].  The signature and the recorded failure reason are
    not part of it; changing the recipient or the sender, as the notebook
    does to [t5], changes what [rsa.verify] is given. *)
Theorem get_core_data_binds (t t' : Transaction) :
  get_core_data t = get_core_data t'
  <-> sender_address t = sender_address t'
      /\ recipient_address t = recipient_address t'
      /\ repr_float (value t) = repr_float (value t').
Proof.
  unfold get_core_data. split.
  - intros E. apply encode_inj in E.
    apply repr_PublicKey_prefix in E. destruct E as [Es E].
    apply repr_PublicKey_prefix in E. tauto.
  - intros (-> & -> & ->). reflexivity.
Qed.

End CoreData.

(** ** What the header holds *)

Lemma append_nil_r_string (s : string) : s +:+ EmptyString = s.
Proof.
  induction s as [| c s IH]; [reflexivity |].
  change (String c (s +:+ EmptyString) = String c s). now rewrite IH.
Qed.

Lemma free_of_app (c : ascii) (a b : string) :
  free_of c (a +:+ b) = free_of c a && free_of c b.
Proof.
  induction a as [| h a IH]; [reflexivity |].
  change (negb (Ascii.eqb h c) && free_of c (a +:+ b)
          = negb (Ascii.eqb h c) && free_of c a && free_of c b).
  rewrite IH. apply andb_assoc.
Qed.

Lemma split_at_literal (c : ascii) (l a a' y y' : string) :
  free_of c a = true -> free_of c a' = true ->
  a +:+ (String c l +:+ y) = a' +:+ (String c l +:+ y') -> a = a' /\ y = y'.
Proof.
  intros Ha Ha' E.
  change (a +:+ String c (l +:+ y) = a' +:+ String c (l +:+ y')) in E.
  destruct (split_at c a a' _ _ Ha Ha' E) as [-> E'].
  apply append_inv_head in E'. auto.
Qed.

Lemma join_cons (sep x : string) (rest : list string) :
  join sep (x :: rest)
  = x +:+ match rest with
          | [] => EmptyString
          | _ :: _ => sep +:+ join sep rest
          end.
Proof.
  destruct rest; [| reflexivity].
  simpl. symmetry. apply append_nil_r_string.
Qed.

Section Header.
Context {P : Primitives}.

Lemma repr_Transaction_head (t : Transaction) :
  exists r, repr_Transaction t = String "T"%char r.
Proof. eexists. reflexivity. Qed.

(** The text of a transaction, followed by anything, determines its two
    addresses. *)
Lemma repr_Transaction_addresses (t t' : Transaction) (x x' : string) :
  repr_Transaction t +:+ x = repr_Transaction t' +:+ x' ->
  sender_address t = sender_address t'
  /\ recipient_address t = recipient_address t'
  /\ repr_float (value t)
     +:+ (", signature=" +:+ (repr_bytes (signature t) +:+ (")" +:+ x)))
     = repr_float (value t')
       +:+ (", signature=" +:+ (repr_bytes (signature t') +:+ (")" +:+ x'))).
Proof.
  unfold repr_Transaction. rewrite !append_assoc_string. intros E.
  apply append_inv_head in E.
  apply repr_PublicKey_prefix in E. destruct E as [Es E].
  apply append_inv_head in E.
  apply repr_PublicKey_prefix in E. destruct E as [Er E].
  apply append_inv_head in E. auto.
Qed.

Lemma same_rendering_repr (t t' : Transaction) :
  same_rendering t t' -> repr_Transaction t = repr_Transaction t'.
Proof.
  intros (Es & Er & Ev & Eg). unfold repr_Transaction.
  now rewrite Es, Er, Ev, Eg.
Qed.

Lemma same_rendering_transactions (ts ts' : list Transaction) :
  Forall2 same_rendering ts ts' -> repr_transactions ts = repr_transactions ts'.
Proof.
  intros F. unfold repr_transactions.
  assert (E : map repr_Transaction ts = map repr_Transaction ts').
  { induction F as [| t t' ts ts' R F IH]; [reflexivity |].
    simpl. now rewrite (same_rendering_repr _ _ R), IH. }
  now rewrite E.
Qed.

Section Literals.
Hypothesis floats : floats_hold_no_comma.
Hypothesis literals : bytes_are_literals.

(** With the two facts about [repr], the text of a transaction, followed
    by anything, determines how each field is rendered. *)
Lemma repr_Transaction_prefix (t t' : Transaction) (x x' : string) :
  repr_Transaction t +:+ x = repr_Transaction t' +:+ x' ->
  same_rendering t t' /\ x = x'.
Proof.
  intros E. apply repr_Transaction_addresses in E.
  destruct E as (Es & Er & E).
  apply (split_at_literal ","%char " signature=") in E; try apply floats.
  destruct E as [Ev E].
  apply literals in E. destruct E as [Eg E].
  apply append_inv_head in E.
  unfold same_rendering. auto.
Qed.

(** The text of a list of transactions, up to its closing bracket. *)
Lemma repr_list_prefix (ts : list Transaction) :
  forall (ts' : list Transaction) (x x' : string),
    join ", " (map repr_Transaction ts) +:+ String "]"%char x
    = join ", " (map repr_Transaction ts') +:+ String "]"%char x' ->
    Forall2 same_rendering ts ts' /\ x = x'.
Proof.
  induction ts as [| t ts IH]; intros [| t' ts'] x x' E.
  - injection E as ->. split; [constructor | reflexivity].
  - exfalso. simpl map in E. rewrite join_cons in E.
    destruct (repr_Transaction_head t') as [r R]. rewrite R in E. discriminate E.
  - exfalso. simpl map in E. rewrite join_cons in E.
    destruct (repr_Transaction_head t) as [r R]. rewrite R in E. discriminate E.
  - simpl map in E. rewrite !join_cons, !append_assoc_string in E.
    apply repr_Transaction_prefix in E. destruct E as [R E].
    destruct ts as [| u ts]; destruct ts' as [| u' ts']; simpl map in E.
    + injection E as ->.
      split; [constructor; [exact R | constructor] | reflexivity].
    + discriminate E.
    + discriminate E.
    + cbv beta iota in E.
      rewrite !append_assoc_string in E. apply append_inv_head in E.
      apply (IH (u' :: ts') x x') in E. destruct E as [F ->].
      split; [constructor; assumption | reflexivity].
Qed.

Lemma repr_transactions_inj (ts ts' : list Transaction) :
  repr_transactions ts = repr_transactions ts' <-> Forall2 same_rendering ts ts'.
Proof.
  split; [| apply same_rendering_transactions].
  unfold repr_transactions. intros E.
  apply append_inv_head in E.
  apply repr_list_prefix in E. tauto.
Qed.

End Literals.

(** With the other four fields equal, two headers are equal exactly when
    the texts of the two lists of transactions are. *)
Lemma get_header_transactions (b b' : Block) :
  num b' = num b -> timestamp b' = timestamp b ->
  prev_block_hash b' = prev_block_hash b -> nonce b' = nonce b ->
  (get_header b' = get_header b
   <-> repr_transactions (transactions b') = repr_transactions (transactions b)).
Proof.
  intros En Et Ep Ek. unfold get_header. rewrite En, Et, Ep, Ek. split.
  - intros E. apply encode_inj in E. now do 4 apply append_inv_head in E.
  - now intros ->.
Qed.

(** C9. [get_header] is the encoding of [str(num)], [str(timestamp)],
    [prev_block_hash], [str(nonce)] and [str(transactions)], in that order,
    and of nothing else: two blocks that agree on these five fields have
    the same header and digest, whatever their cached hash.  Each of the
    five fields is mixed in: with the other four fixed, the header changes
    exactly when [num], the text of [timestamp], [prev_block_hash] or
    [nonce] changes; a block without transactions and a block with some
    have different headers, equal headers give the first transactions the
    same sender and recipient, and, [repr] of a float holding no comma and
    [repr] of [bytes] being a literal, the header changes exactly when the
    list of transactions changes in its length or in the sender, the
    recipient, the text of the value or the signature of one of them.
    [hash] returns the SHA-256 hex digest of that header and stores it in
    [block_hash], leaving the five fields alone; a second call returns the
    same digest and the same block. *)
Theorem Block_hash_of_header (b : Block) :
  get_header b
  = encode (str_int (num b) +:+ repr_float (timestamp b) +:+ prev_block_hash b
            +:+ str_int (nonce b) +:+ repr_transactions (transactions b))
  /\ (forall b' : Block,
        num b' = num b -> timestamp b' = timestamp b ->
        prev_block_hash b' = prev_block_hash b -> nonce b' = nonce b ->
        transactions b' = transactions b ->
        get_header b' = get_header b /\ snd (Block_hash b') = snd (Block_hash b))
  /\ (forall n : Z, n <> nonce b -> get_header (set_nonce n b) <> get_header b)
  /\ (forall b' : Block,
        timestamp b' = timestamp b -> prev_block_hash b' = prev_block_hash b ->
        nonce b' = nonce b -> transactions b' = transactions b ->
        (get_header b' = get_header b <-> num b' = num b))
  /\ (forall b' : Block,
        num b' = num b -> prev_block_hash b' = prev_block_hash b ->
        nonce b' = nonce b -> transactions b' = transactions b ->
        (get_header b' = get_header b
         <-> repr_float (timestamp b') = repr_float (timestamp b)))
  /\ (forall b' : Block,
        num b' = num b -> timestamp b' = timestamp b ->
        nonce b' = nonce b -> transactions b' = transactions b ->
        (get_header b' = get_header b <-> prev_block_hash b' = prev_block_hash b))
  /\ (forall b' : Block,
        num b' = num b -> timestamp b' = timestamp b ->
        prev_block_hash b' = prev_block_hash b -> transactions b' = transactions b ->
        (get_header b' = get_header b <-> nonce b' = nonce b))
  /\ (forall b' : Block,
        num b' = num b -> timestamp b' = timestamp b ->
        prev_block_hash b' = prev_block_hash b -> nonce b' = nonce b ->
        (transactions b = [] -> transactions b' <> [] ->
         get_header b' <> get_header b)
        /\ (forall t rest t' rest',
              transactions b = t :: rest -> transactions b' = t' :: rest' ->
              get_header b' = get_header b ->
              sender_address t' = sender_address t
              /\ recipient_address t' = recipient_address t)
        /\ (floats_hold_no_comma -> bytes_are_literals ->
            (get_header b' = get_header b
             <-> Forall2 same_rendering (transactions b') (transactions b))))
  /\ snd (Block_hash b) = sha256_hexdigest (get_header b)
  /\ fst (Block_hash b) = set_block_hash (snd (Block_hash b)) b
  /\ block_hash (fst (Block_hash b)) = snd (Block_hash b)
  /\ snd (Block_hash (fst (Block_hash b))) = snd (Block_hash b)
  /\ fst (Block_hash (fst (Block_hash b))) = fst (Block_hash b).
Proof.
  split; [reflexivity |].
  split.
  { intros b' En Et Ep Ek Ex.
    assert (H : get_header b' = get_header b) by (unfold get_header; congruence).
    split; [exact H |]. unfold Block_hash; simpl. now rewrite H. }
  split.
  { intros n Hn E. unfold get_header in E; simpl in E.
    apply encode_inj in E.
    do 3 apply append_inv_head in E.
    apply append_inv_tail, str_int_inj in E. contradiction. }
  split.
  { intros b' Et Ep Ek Ex. unfold get_header. rewrite Et, Ep, Ek, Ex. split.
    - intros E. apply encode_inj in E.
      now apply append_inv_tail, str_int_inj in E.
    - now intros ->. }
  split.
  { intros b' En Ep Ek Ex. unfold get_header. rewrite En, Ep, Ek, Ex. split.
    - intros E. apply encode_inj in E. apply append_inv_head in E.
      now apply append_inv_tail in E.
    - now intros ->. }
  split.
  { intros b' En Et Ek Ex. unfold get_header. rewrite En, Et, Ek, Ex. split.
    - intros E. apply encode_inj in E. do 2 apply append_inv_head in E.
      now apply append_inv_tail in E.
    - now intros ->. }
  split.
  { intros b' En Et Ep Ex. unfold get_header. rewrite En, Et, Ep, Ex. split.
    - intros E. apply encode_inj in E. do 3 apply append_inv_head in E.
      now apply append_inv_tail, str_int_inj in E.
    - now intros ->. }
  split.
  { intros b' En Et Ep Ek.
    pose proof (get_header_transactions b b' En Et Ep Ek) as H.
    split; [| split].
    - intros E0 N E. apply H in E. rewrite E0 in E.
      destruct (transactions b') as [| t' ts']; [congruence |].
      unfold repr_transactions in E. simpl map in E. rewrite join_cons in E.
      destruct (repr_Transaction_head t') as [r R]. rewrite R in E.
      discriminate E.
    - intros t rest t' rest' E0 E0' E. apply H in E. rewrite E0, E0' in E.
      unfold repr_transactions in E. apply append_inv_head in E.
      simpl map in E. rewrite !join_cons, !append_assoc_string in E.
      apply repr_Transaction_addresses in E. tauto.
    - intros Hf Hl. rewrite H. apply repr_transactions_inj; assumption. }
  repeat split.
Qed.

End Header.

(** The stand-in [repr]s of [Literal] have the two properties. *)
Lemma float_text_holds_no_comma (x : float) :
  free_of ","%char (Demo.float_text x) = true.
Proof.
  unfold Demo.float_text.
  destruct (Prim2SF x) as [[] | [] | | s m e]; try reflexivity.
  rewrite !free_of_app.
  rewrite (proj1 (str_int_free_of (Z.pos m))), (proj1 (str_int_free_of e)).
  destruct s; reflexivity.
Qed.

Lemma escaped_prefix (b : bytes) :
  forall (b' : bytes) (x x' : string),
    Literal.escaped b +:+ x = Literal.escaped b' +:+ x' -> b = b' /\ x = x'.
Proof.
  induction b as [| c b IH]; intros [| c' b'] x x' E.
  - apply (append_inv_head "'") in E. auto.
  - discriminate E.
  - discriminate E.
  - injection E as Ec E.
    apply IH in E. destruct E as [-> ->].
    assert (c = c').
    { rewrite <- (byte_of_ascii_of_byte c), <- (byte_of_ascii_of_byte c').
      unfold ascii_of_byte in *. congruence. }
    subst. auto.
Qed.

Lemma bytes_literal_prefix (b b' : bytes) (x x' : string) :
  Literal.bytes_literal b +:+ x = Literal.bytes_literal b' +:+ x' ->
  b = b' /\ x = x'.
Proof.
  unfold Literal.bytes_literal. rewrite !append_assoc_string. intros E.
  apply append_inv_head in E. now apply escaped_prefix in E.
Qed.

(** * The further properties on concrete inputs *)

Module Runs.
Import Demo Cases.

Lemma third_one_ok :
  mine_block 50 1703089269.75
    (self_ (snd (submit_transaction (node [genesis; block1] [reward]) one)))
  = Some (node [genesis; block1; block2_one] [reward],
          ["Successfully mined new block 2!"]).
Proof. vm_compute. reflexivity. Qed.

(** X1 on the second [mine_block]: five increments. *)
Lemma mine_block_least_nonce_witness :
  exists k : nat,
    (k <= 5)%nat
    /\ last (blocks (node [genesis; block1] [reward]))
       = Some (set_block_hash
                 (recomputed_hash
                    (set_nonce (Z.of_nat k)
                       (candidate_block 1703089268.5 (node [genesis] [reward]))))
                 (set_nonce (Z.of_nat k)
                    (candidate_block 1703089268.5 (node [genesis] [reward]))))
    /\ proof_of_work_func (node [genesis] [reward])
         (recomputed_hash
            (set_nonce (Z.of_nat k)
               (candidate_block 1703089268.5 (node [genesis] [reward])))) = true
    /\ (forall j : nat,
          (j < k)%nat ->
          proof_of_work_func (node [genesis] [reward])
            (recomputed_hash
               (set_nonce (Z.of_nat j)
                  (candidate_block 1703089268.5 (node [genesis] [reward]))))
          = false)
    /\ ["Successfully mined new block 1!"]
       = ["Successfully mined new block "
          +:+ str_int (num (candidate_block 1703089268.5 (node [genesis] [reward])))
          +:+ "!"].
Proof.
  exact (mine_block_least_nonce 5 1703089268.5 (node [genesis] [reward])
           (node [genesis; block1] [reward]) _ Scenario.second_ok).
Defined.

(** X2: the second search ends, and a search under a predicate that
    accepts nothing never does. *)
Lemma mine_block_returns_iff_witness :
  (exists fuel r, mine_block fuel 1703089268.5 (node [genesis] [reward]) = Some r)
  /\ forall fuel,
       mine_block fuel 1703089268.5
         {| miner_address := miner; blocks := [genesis];
            pending_transactions := [reward];
            proof_of_work_func := fun _ => false |} = None.
Proof.
  split.
  - apply (proj1 (mine_block_returns_iff 1703089268.5 (node [genesis] [reward]))).
    exists 5%nat. vm_compute. reflexivity.
  - apply (proj1 (proj2 (mine_block_returns_iff 1703089268.5
                           {| miner_address := miner; blocks := [genesis];
                              pending_transactions := [reward];
                              proof_of_work_func := fun _ => false |}))).
    intros k. reflexivity.
Defined.

(** X3 on the third block. *)
Lemma reachable_blocks_numbered_witness : num block2 = Z.of_nat 2.
Proof.
  exact (reachable_blocks_numbered (node [genesis; block1; block2] [reward])
           2 block2 Scenario.drifted_reachable eq_refl).
Defined.

(** X4 on the chain of three blocks. *)
Lemma reachable_chain_validates_witness :
  fst (fst (validate_chain (node [genesis; block1; block2] [reward]))) = Return true
  /\ snd (validate_chain (node [genesis; block1; block2] [reward]))
     = ["Successfully validated chain of size "
        +:+ str_int (Z.of_nat (length (blocks (node [genesis; block1; block2] [reward]))))
        +:+ "!"].
Proof.
  exact (reachable_chain_validates (node [genesis; block1; block2] [reward])
           Scenario.drifted_reachable).
Defined.

(** X5: overwritten caches change nothing. *)
Lemma validate_chain_ignores_caches_witness :
  fst (fst (validate_chain (node stale_chain [reward])))
  = fst (fst (validate_chain (node [genesis; block1; block2] [reward])))
  /\ snd (validate_chain (node stale_chain [reward]))
     = snd (validate_chain (node [genesis; block1; block2] [reward])).
Proof.
  apply (proj1 (validate_chain_ignores_caches (node stale_chain [reward])
                  (node [genesis; block1; block2] [reward]))); reflexivity.
Defined.

(** X6 on the first two blocks that the miner adds.  The first holds only
    the reward: the miner, who had nothing, has [2.0].  The second holds
    the reward and a payment of 0.5 to [alice]: the miner has
    [2.0 + 2.0 - 0.5], [alice] has [0.5] and [bob], whom the pool does not
    name, still has nothing. *)
Lemma mine_block_applies_pool_witness :
  (get_balance (node [genesis] [reward]) miner = 0%float
   /\ get_balance (node [genesis; block1] [reward]) miner = 2%float
   /\ get_balance (node [genesis; block1] [reward]) reward_sender = (-2)%float)
  /\ get_balance (node [genesis; block1; block2_half] [reward]) miner = 3.5%float
  /\ get_balance (node [genesis; block1; block2_half] [reward]) alice = 0.5%float
  /\ get_balance (node [genesis; block1; block2_half] [reward]) bob
     = get_balance (node [genesis; block1] [reward; half]) bob
  /\ forall t,
       get_balance
         (self_ (snd (submit_transaction (node [genesis; block1] [reward; half]) t)))
         alice
       = get_balance (node [genesis; block1] [reward; half]) alice.
Proof.
  split; [| split; [| split; [| split]]].
  - split; [vm_compute; reflexivity |].
    destruct (proj1 (proj2 (mine_block_applies_pool 5 1703089268.5
                              (node [genesis] [reward]) (node [genesis; block1] [reward])
                              _ miner Scenario.second_ok)))
      as [Hm Hs]; [reflexivity | discriminate |].
    split; [etransitivity; [exact Hm |] | etransitivity; [exact Hs |]];
      vm_compute; reflexivity.
  - rewrite (proj1 (mine_block_applies_pool 50 1703089269.75
                      (node [genesis; block1] [reward; half])
                      (node [genesis; block1; block2_half] [reward]) _ miner
                      Scenario.third_half_ok)).
    vm_compute. reflexivity.
  - rewrite (proj1 (mine_block_applies_pool 50 1703089269.75
                      (node [genesis; block1] [reward; half])
                      (node [genesis; block1; block2_half] [reward]) _ alice
                      Scenario.third_half_ok)).
    vm_compute. reflexivity.
  - apply (proj1 (proj2 (proj2 (mine_block_applies_pool 50 1703089269.75
                      (node [genesis; block1] [reward; half])
                      (node [genesis; block1; block2_half] [reward]) _ bob
                      Scenario.third_half_ok)))).
    intros t Ht. simpl in Ht.
    destruct Ht as [<- | [<- | []]]; split; discriminate.
  - apply (proj2 (proj2 (proj2 (mine_block_applies_pool 50 1703089269.75
                      (node [genesis; block1] [reward; half])
                      (node [genesis; block1; block2_half] [reward]) _ alice
                      Scenario.third_half_ok)))).
Defined.

Lemma bob_is_a_stranger :
  ~ In bob (chain_addresses (blocks (node [genesis; block1; block2_half] [reward]))).
Proof. vm_compute. intuition discriminate. Qed.

(** X7: [bob], whom the chain does not name, cannot pay 1.0. *)
Lemma stranger_has_nothing_witness :
  get_balance (node [genesis; block1; block2_half] [reward]) bob = 0%float
  /\ (exists e,
        fst (submit_transaction (node [genesis; block1; block2_half] [reward]) wish)
        = Raise e)
  /\ self_ (snd (submit_transaction (node [genesis; block1; block2_half] [reward])
                   wish))
     = node [genesis; block1; block2_half] [reward].
Proof.
  destruct (stranger_has_nothing (node [genesis; block1; block2_half] [reward]) bob
              bob_is_a_stranger) as [H1 H2].
  split; [exact H1 |]. apply H2; vm_compute; reflexivity.
Defined.

(** X8 right after construction: a negative value is pooled. *)
Lemma fresh_node_has_no_funds_witness :
  (forall address, get_balance (node [genesis] [reward]) address = 0%float)
  /\ fst (submit_transaction (node [genesis] [reward]) take) = Return tt.
Proof.
  destruct (fresh_node_has_no_funds 4 1703089267.25 miner (node [genesis] [reward]) _
              Scenario.started_ok) as [H1 H2].
  split; [exact H1 |]. apply H2; vm_compute; reflexivity.
Defined.

(** X9: [alice] owns 0.5 and pools two payments of 0.5. *)
Lemma submit_transaction_ignores_pool_witness :
  fst (submit_transaction
         (self_ (snd (submit_transaction
                        (node [genesis; block1; block2_half] [reward]) spend)))
         spend) = Return tt
  /\ pending_transactions
       (self_ (snd (submit_transaction
                      (self_ (snd (submit_transaction
                                     (node [genesis; block1; block2_half] [reward])
                                     spend)))
                      spend)))
     = pending_transactions (node [genesis; block1; block2_half] [reward])
       ++ [spend; spend].
Proof.
  apply (proj2 (submit_transaction_ignores_pool
                  (node [genesis; block1; block2_half] [reward]) spend)).
  vm_compute. reflexivity.
Defined.

(** Once mined, the two payments leave [alice] with -0.5. *)
Lemma alice_overdrawn :
  mine_block 10 1703089271
    (node [genesis; block1; block2_half] [reward; spend; spend])
  = Some (node [genesis; block1; block2_half; block3_spend] [reward],
          ["Successfully mined new block 3!"])
  /\ get_balance (node [genesis; block1; block2_half; block3_spend] [reward]) alice
     = (-0.5)%float.
Proof. split; vm_compute; reflexivity. Qed.

(** X10 on the chain of three blocks. *)
Lemma reachable_ledger_shape_witness :
  blocks (node [genesis; block1; block2] [reward]) <> []
  /\ reward_then_validated (miner_address (node [genesis; block1; block2] [reward]))
       (pending_transactions (node [genesis; block1; block2] [reward]))
  /\ forall (i : nat) (b : Block),
       blocks (node [genesis; block1; block2] [reward]) !! i = Some b ->
       match i with
       | O => transactions b = []
       | S _ =>
           reward_then_validated
             (miner_address (node [genesis; block1; block2] [reward]))
             (transactions b)
       end.
Proof.
  exact (reachable_ledger_shape (node [genesis; block1; block2] [reward])
           Scenario.drifted_reachable).
Defined.

(** X11: signing the notebook's [t2]. *)
Lemma Transaction_sign_spec_witness :
  Transaction_sign (new_Transaction miner alice 1) any_key
  = (Return tt,
     set_signature (rev (get_core_data (new_Transaction miner alice 1)))
       (new_Transaction miner alice 1))
  /\ Transaction_validate
       (set_signature (rev (get_core_data (new_Transaction miner alice 1)))
          (new_Transaction miner alice 1))
     = (Return tt,
        set_signature (rev (get_core_data (new_Transaction miner alice 1)))
          (new_Transaction miner alice 1)).
Proof.
  apply (proj1 (proj2 (Transaction_sign_spec (new_Transaction miner alice 1) any_key))
           _ "SHA-256"); vm_compute; reflexivity.
Defined.

(** X12: the transaction signed again after a failure, rejected for
    insufficient funds. *)
Lemma stale_reason_is_reported_witness :
  fst (submit_transaction (node [genesis; block1; block2_half] [reward]) resigned)
  = Raise (insufficient_tokens (value resigned)
             (get_balance (node [genesis; block1; block2_half] [reward])
                (sender_address resigned)))
  /\ stdout (snd (submit_transaction (node [genesis; block1; block2_half] [reward])
                    resigned))
     = failure_report
         (insufficient_tokens (value resigned)
            (get_balance (node [genesis; block1; block2_half] [reward])
               (sender_address resigned))) resigned
       ++ ["Validation Failure Reason: " +:+ "Verification failed"].
Proof.
  apply (proj2 (proj2 (proj2
           (stale_reason_is_reported (node [genesis; block1; block2_half] [reward])
              resigned "Verification failed" eq_refl))));
    try (vm_compute; reflexivity).
  discriminate.
Defined.

(** X14 on the chain of three blocks. *)
Lemma reachable_hashes_end_in_000_witness :
  (forall h,
      proof_of_work_func (node [genesis; block1; block2] [reward]) h = true
      <-> exists p, h = p +:+ "000")
  /\ Forall (fun b => block_hash b = snd (Block_hash b)
                      /\ exists p, block_hash b = p +:+ "000")
            (blocks (node [genesis; block1; block2] [reward])).
Proof.
  exact (reachable_hashes_end_in_000 (node [genesis; block1; block2] [reward])
           Scenario.drifted_reachable).
Defined.

(** X15: [bob], who owns nothing, pools a payment of NaN. *)
Lemma nan_defeats_balance_check_witness :
  fst (submit_transaction (node [genesis; block1; block2_half] [reward]) void)
  = Return tt
  /\ pending_transactions
       (self_ (snd (submit_transaction (node [genesis; block1; block2_half] [reward])
                      void)))
     = pending_transactions (node [genesis; block1; block2_half] [reward]) ++ [void].
Proof.
  apply (proj1 (nan_defeats_balance_check
                  (node [genesis; block1; block2_half] [reward])));
    vm_compute; reflexivity.
Defined.

(** X16 for the keys and times of this instance. *)
Lemma notebook_run_witness :
  ["Successfully mined new block 0!"] = ["Successfully mined new block 0!"]
  /\ ["Successfully mined new block 1!"] = ["Successfully mined new block 1!"]
  /\ (exists first_block,
        blocks (node [genesis; block1] [reward]) !! 0%nat = Some first_block
        /\ num first_block = 0
        /\ prev_block_hash first_block = "-" /\ transactions first_block = [])
  /\ fst (submit_transaction (node [genesis; block1] [reward]) one) = Return tt
  /\ stdout (snd (submit_transaction (node [genesis; block1] [reward]) one))
     = ["Transaction submitted successfully."]
  /\ ["Successfully mined new block 2!"] = ["Successfully mined new block 2!"]
  /\ get_balance (node [genesis; block1; block2_one] [reward]) miner = 3%float
  /\ get_balance (node [genesis; block1; block2_one] [reward]) alice = 1%float
  /\ fst (fst (validate_chain (node [genesis; block1; block2_one] [reward])))
     = Return true
  /\ snd (validate_chain (node [genesis; block1; block2_one] [reward]))
     = ["Successfully validated chain of size 3!"].
Proof.
  apply (notebook_run miner alice one 4 5 50 1703089267.25 1703089268.5 1703089269.75
           (node [genesis] [reward]) (node [genesis; block1] [reward])
           (node [genesis; block1; block2_one] [reward])
           ["Successfully mined new block 0!"] ["Successfully mined new block 1!"]
           ["Successfully mined new block 2!"]);
    [ discriminate | discriminate | discriminate
    | reflexivity | reflexivity | reflexivity
    | vm_compute; reflexivity
    | exact Scenario.started_ok | exact Scenario.second_ok | exact third_one_ok ].
Defined.

(** C9 on concrete blocks: a stale cache changes neither the header nor the
    digest; another nonce and another timestamp change the header.  With
    the literal [repr] of [bytes], another recipient in the block's one
    transaction changes the header, and a recorded failure reason, which
    [repr] does not show, does not. *)
Lemma Block_hash_of_header_witness :
  (get_header (set_block_hash "stale" block1) = get_header block1
   /\ snd (Block_hash (set_block_hash "stale" block1)) = snd (Block_hash block1))
  /\ get_header (set_nonce 6 block1) <> get_header block1
  /\ get_header block1_redated <> get_header block1
  /\ @get_header Literal.primitives (Literal.paying bob)
     <> @get_header Literal.primitives (Literal.paying alice)
  /\ @get_header Literal.primitives
       {| num := 2; timestamp := 1703089269.75; prev_block_hash := "000";
          transactions :=
            [set_validation_failure_reason "Verification failed"
               (new_Transaction miner alice 0.5)];
          block_hash := "f00"; nonce := 0 |}
     = @get_header Literal.primitives (Literal.paying alice).
Proof.
  destruct (Block_hash_of_header block1) as (_ & H2 & H3 & _ & H5 & _).
  destruct (@Block_hash_of_header Literal.primitives (Literal.paying alice))
    as (_ & _ & _ & _ & _ & _ & _ & H8 & _).
  split; [apply H2; reflexivity |].
  split; [apply H3; discriminate |].
  split.
  { intros E. apply (H5 block1_redated) in E; try reflexivity.
    vm_compute in E. discriminate E. }
  split.
  - intros E.
    apply (proj2 (proj2 (H8 (Literal.paying bob) eq_refl eq_refl eq_refl eq_refl))) in E.
    + inversion E as [| t t' ts ts' R F]. subst.
      destruct R as (_ & R & _). discriminate R.
    + exact float_text_holds_no_comma.
    + exact bytes_literal_prefix.
  - apply (proj2 (proj2 (H8 _ eq_refl eq_refl eq_refl eq_refl))).
    + exact float_text_holds_no_comma.
    + exact bytes_literal_prefix.
    + repeat constructor.
Defined.

End Runs.
